(** * EventBot (FIFI.PY): category classification, ingestion and answering

    A shallow embedding of the policy code of FIFI.PY: the two keyword
    classifiers, the PDF ingestion loop over the [documents] table, the
    prompt map, the retriever construction and the [ask_question] handler.
    Third-party collaborators (PDF extraction, text splitting, vector index,
    language model, the Unicode case tables) and what the console and the
    database refuse are parameters of the model. *)

From Stdlib Require Import NArith String Ascii Bool List Lia.
From stdpp Require Import base option list gmap.

Local Open Scope N_scope.
Local Open Scope list_scope.

(** ** Python strings

    A Python [str] is a sequence of Unicode code points.  String literals of
    the (UTF-8 encoded) program text are written as Rocq string literals and
    decoded to code points by [py]. *)

Abbreviation str := (list N) (only parsing).

Fixpoint utf8_bytes (s : string) : list N :=
  match s with
  | EmptyString => []
  | String a rest => N_of_ascii a :: utf8_bytes rest
  end.

Definition cont (b : N) : N := N.land b 63.

Fixpoint utf8_decode (bs : list N) : str :=
  match bs with
  | [] => []
  | b0 :: r0 =>
    if b0 <? 128 then b0 :: utf8_decode r0
    else
      match r0 with
      | [] => []
      | b1 :: r1 =>
        if b0 <? 224 then
          N.lor (N.shiftl (N.land b0 31) 6) (cont b1) :: utf8_decode r1
        else
          match r1 with
          | [] => []
          | b2 :: r2 =>
            if b0 <? 240 then
              N.lor (N.shiftl (N.land b0 15) 12)
                    (N.lor (N.shiftl (cont b1) 6) (cont b2)) :: utf8_decode r2
            else
              match r2 with
              | [] => []
              | b3 :: r3 =>
                N.lor (N.shiftl (N.land b0 7) 18)
                      (N.lor (N.shiftl (cont b1) 12)
                             (N.lor (N.shiftl (cont b2) 6) (cont b3)))
                  :: utf8_decode r3
              end
          end
      end
  end.

Definition py (s : string) : str := utf8_decode (utf8_bytes s).
Arguments py : simpl never.

(** [a == b] on strings. *)
Fixpoint str_eqb (a b : str) : bool :=
  match a, b with
  | [], [] => true
  | x :: a', y :: b' => (x =? y) && str_eqb a' b'
  | _, _ => false
  end.

(** [s.startswith(p)] *)
Fixpoint startswith (p s : str) : bool :=
  match p, s with
  | [], _ => true
  | _ :: _, [] => false
  | x :: p', y :: s' => (x =? y) && startswith p' s'
  end.

(** [p in s]: [p] occurs in [s] as a contiguous run of code points. *)
Fixpoint str_in (p s : str) : bool :=
  startswith p s ||
  match s with
  | [] => false
  | _ :: s' => str_in p s'
  end.

(** [any(word in q for word in words)] *)
Definition any_in (words : list str) (q : str) : bool :=
  existsb (fun word => str_in word q) words.

(** [sep.join(parts)] *)
Fixpoint join (sep : str) (parts : list str) : str :=
  match parts with
  | [] => []
  | [p] => p
  | p :: rest => p ++ sep ++ join sep rest
  end.

(** [str.isspace] on one code point: the code points CPython's
    [_PyUnicode_IsWhitespace] accepts. *)
Definition isspace (c : N) : bool :=
  ((9 <=? c) && (c <=? 13)) || ((28 <=? c) && (c <=? 32)) ||
  (c =? 133) || (c =? 160) || (c =? 5760) ||
  ((8192 <=? c) && (c <=? 8202)) ||
  (c =? 8232) || (c =? 8233) || (c =? 8239) || (c =? 8287) || (c =? 12288).

Fixpoint lstrip (s : str) : str :=
  match s with
  | [] => []
  | c :: s' => if isspace c then lstrip s' else s
  end.

Definition rstrip (s : str) : str := rev (lstrip (rev s)).

(** [s.strip()] *)
Definition strip (s : str) : str := rstrip (lstrip s).

(** Truth value of a string: [not s] holds for the empty string only. *)
Definition truthy (s : str) : bool :=
  match s with [] => false | _ :: _ => true end.

(** [os.path.basename] (posixpath): what follows the last slash. *)
Fixpoint basename_from (acc : str) (p : str) : str :=
  match p with
  | [] => acc
  | c :: p' => if c =? 47 then basename_from [] p' else basename_from (acc ++ [c]) p'
  end.

Definition basename (p : str) : str := basename_from [] p.

(** ** Lower-casing

    [str.lower] replaces every code point by its full lower-case mapping.
    For ASCII the mapping is fixed: [A-Z] move down by 32 and nothing else
    changes.  The mapping of the other code points belongs to the Unicode
    database of the interpreter; it may yield several code points and, for
    capital sigma, reads the surrounding text, so it is a parameter that
    receives the whole string and the position. *)

Definition UnicodeLower : Type := str -> nat -> N -> str.

Definition ascii_lower (c : N) : N :=
  if (65 <=? c) && (c <=? 90) then c + 32 else c.

Definition lower_ucs4 (tbl : UnicodeLower) (whole : str) (i : nat) (c : N) : str :=
  if c <? 128 then [ascii_lower c] else tbl whole i c.

Fixpoint lower_from (tbl : UnicodeLower) (whole : str) (i : nat) (rest : str) : str :=
  match rest with
  | [] => []
  | c :: rest' => lower_ucs4 tbl whole i c ++ lower_from tbl whole (S i) rest'
  end.

Definition lower (tbl : UnicodeLower) (s : str) : str := lower_from tbl s 0 s.

(** A table that is right on Basic Latin and the Latin-1 Supplement and
    leaves every other code point alone; used to run examples. *)
Definition latin1_lower : UnicodeLower := fun _ _ c =>
  if (192 <=? c) && (c <=? 222) && negb (c =? 215) then [c + 32] else [c].

(** ** Category classifier *)

Section Classifier.

Variable unicode_lower : UnicodeLower.

Definition detect_type_from_filename (filename : str) : str :=
  let fname := lower unicode_lower filename in
  if str_in (py "mariage") fname then py "MARIAGE"
  else if str_in (py "logistique") fname || str_in (py "conference") fname
  then py "SEMINAIRE"
  else if str_in (py "salon") fname then py "SALON"
  else if str_in (py "theme") fname || str_in (py "idee") fname
          || str_in (py "creatif") fname || str_in (py "ambiance") fname
  then py "CRÉATIVITÉ"
  else if str_in (py "budget") fname || str_in (py "finance") fname
  then py "BUDGET"
  else if str_in (py "planning") fname || str_in (py "programme") fname
  then py "PLANIFICATION"
  else py "SEMINAIRE".

Definition detect_event_type (question : str) : str :=
  let q := lower unicode_lower question in
  if any_in [py "mariage"; py "noces"; py "fiançailles"] q then py "MARIAGE"
  else if any_in [py "salon"; py "exposition"; py "stand"] q then py "SALON"
  else if any_in [py "ambiance"; py "thème"; py "décoration"; py "idées"; py "créatif"] q
  then py "CRÉATIVITÉ"
  else if any_in [py "budget"; py "financement"; py "coût"; py "prix"] q
  then py "BUDGET"
  else if any_in [py "planning"; py "planification"; py "étapes"; py "programme"] q
  then py "PLANIFICATION"
  else py "SEMINAIRE".

End Classifier.


(** The classifier as the specification words it: a closed set of
    categories and an ordered table of (keywords, category) rules, the
    first rule with a keyword occurring in the lower-cased text wins,
    SEMINAR otherwise.  [label] gives the string the program uses for a
    category. *)

Inductive Category : Type :=
  BUDGET | PLANNING | SEMINAR | WEDDING | EXPO | CREATIVITY.

Definition label (c : Category) : str :=
  match c with
  | BUDGET => py "BUDGET"
  | PLANNING => py "PLANIFICATION"
  | SEMINAR => py "SEMINAIRE"
  | WEDDING => py "MARIAGE"
  | EXPO => py "SALON"
  | CREATIVITY => py "CRÉATIVITÉ"
  end.

Definition filename_rules : list (list str * Category) :=
  [ ([py "mariage"], WEDDING);
    ([py "logistique"; py "conference"], SEMINAR);
    ([py "salon"], EXPO);
    ([py "theme"; py "idee"; py "creatif"; py "ambiance"], CREATIVITY);
    ([py "budget"; py "finance"], BUDGET);
    ([py "planning"; py "programme"], PLANNING) ].

Definition question_rules : list (list str * Category) :=
  [ ([py "mariage"; py "noces"; py "fiançailles"], WEDDING);
    ([py "salon"; py "exposition"; py "stand"], EXPO);
    ([py "ambiance"; py "thème"; py "décoration"; py "idées"; py "créatif"], CREATIVITY);
    ([py "budget"; py "financement"; py "coût"; py "prix"], BUDGET);
    ([py "planning"; py "planification"; py "étapes"; py "programme"], PLANNING) ].

Fixpoint first_match (rules : list (list str * Category)) (text : str) : Category :=
  match rules with
  | [] => SEMINAR
  | (keywords, c) :: rules' =>
    if any_in keywords text then c else first_match rules' text
  end.

Definition classify_by_filename (tbl : UnicodeLower) (name : str) : Category :=
  first_match filename_rules (lower tbl name).

Definition classify_by_question (tbl : UnicodeLower) (text : str) : Category :=
  first_match question_rules (lower tbl text).

(** Words of a text, as [str.split()] cuts them at white space. *)
Fixpoint split_from (cur : str) (s : str) : list str :=
  match s with
  | [] => match cur with [] => [] | _ => [cur] end
  | c :: s' =>
    if isspace c
    then match cur with [] => split_from [] s' | _ => cur :: split_from [] s' end
    else split_from (cur ++ [c]) s'
  end.

Definition split (s : str) : list str := split_from [] s.

(** ** Program state

    Exceptions are the instances of class [Exception], the class the two
    handlers of the program name; they carry what [str(e)] prints.  A
    statement either completes with a value or raises, and in both cases
    leaves a state behind. *)

Record Exception : Type := { exc_str : str }.

Inductive Result (A : Type) : Type :=
| Ok (a : A)
| Raise (e : Exception).
Arguments Ok {A} a.
Arguments Raise {A} e.

Abbreviation Dict := (gmap (list N) (list N)) (only parsing).

(** [d.get(k, dflt)] *)
Definition dict_get {V : Type} (d : gmap (list N) V) (k : str) (dflt : V) : V :=
  default dflt (d !! k).

(** A dict display [{k1: v1, k2: v2, ...}]: entries are stored left to right. *)
Definition dict_of {V : Type} (entries : list (list N * V)) : gmap (list N) V :=
  fold_left (fun d kv => <[ fst kv := snd kv ]> d) entries ∅.

(** A row of table [documents]. *)
Record Row : Type := {
  rowid : N;
  title : str;
  content : str;
  type : str
}.

Record Document : Type := {
  page_content : str;
  metadata : Dict
}.

Record PromptTemplate : Type := {
  input_variables : list str;
  template : str
}.

(** The process state the modelled statements read and write: the table
    behind [cursor], its AUTOINCREMENT counter, the lines printed, the prompt
    field of the shared chain object [qa_chain], and the log of the calls
    made to [qa_chain.invoke] (chain prompt at the time of the call, inputs). *)
Record World : Type := {
  documents : list Row;
  sqlite_sequence : N;
  stdout : list str;
  chain_prompt : PromptTemplate;
  invocations : list (PromptTemplate * Dict)
}.

Definition set_documents (rows : list Row) (seq : N) (w : World) : World :=
  {| documents := rows; sqlite_sequence := seq; stdout := stdout w;
     chain_prompt := chain_prompt w; invocations := invocations w |}.

Definition set_stdout (out : list str) (w : World) : World :=
  {| documents := documents w; sqlite_sequence := sqlite_sequence w; stdout := out;
     chain_prompt := chain_prompt w; invocations := invocations w |}.

Definition set_chain_prompt (p : PromptTemplate) (w : World) : World :=
  {| documents := documents w; sqlite_sequence := sqlite_sequence w; stdout := stdout w;
     chain_prompt := p; invocations := invocations w |}.

Definition set_invocations (l : list (PromptTemplate * Dict)) (w : World) : World :=
  {| documents := documents w; sqlite_sequence := sqlite_sequence w; stdout := stdout w;
     chain_prompt := chain_prompt w; invocations := l |}.

Definition M (A : Type) : Type := World -> Result A * World.

#[export] Instance M_ret : MRet M := fun A a w => (Ok a, w).

#[export] Instance M_bind : MBind M := fun A B k m w =>
  match m w with
  | (Ok a, w') => k a w'
  | (Raise e, w') => (Raise e, w')
  end.

(** [try: body except Exception as e: handler e] *)
Definition try_except {A : Type} (body : M A) (handler : Exception -> M A) : M A :=
  fun w =>
    match body w with
    | (Ok a, w') => (Ok a, w')
    | (Raise e, w') => handler e w'
    end.

(** The outcome of a call into a collaborator, as a statement. *)
Definition call {A : Type} (r : Result A) : M A := fun w => (r, w).

(** [for x in xs: body], the locals the body rebinds passed along. *)
Fixpoint for_each {A L : Type} (xs : list A) (body : A -> L -> M L) (locals : L) : M L :=
  match xs with
  | [] => mret locals
  | x :: xs' => locals' ← body x locals; for_each xs' body locals'
  end.

(** [print(line)] at line 255 of [ask_question]: the literal of that line
    is ASCII, and the line goes to the end of what was printed.  The lines
    of [insert_pdfs] go through [print_line] below. *)
Definition print (line : str) : M unit :=
  fun w => (Ok tt, set_stdout (stdout w ++ [line]) w).

Definition exec {A : Type} (m : M A) (w : World) : World := snd (m w).

Definition outcome {A : Type} (m : M A) (w : World) : Result A := fst (m w).

(** ** The console and the database, which can refuse

    The lines [insert_pdfs] prints carry emoji and accented letters: on a
    stdout whose encoding lacks one of them [print] raises
    UnicodeEncodeError and writes nothing.  [cursor.execute] and
    [conn.commit] raise when SQLite refuses the statement: a text with a
    lone surrogate, a locked or full database, no rowid left.  Whether they
    do is decided outside the program, so it is a parameter: for the state
    at the time of the call, [StdoutError] and [SqliteError] give the
    exception raised, if any. *)

Inductive Statement : Type :=
| SELECT_COUNT (t : list N)
| INSERT (t c ty : list N)
| COMMIT.

Definition StdoutError : Type := World -> list N -> option Exception.

Definition SqliteError : Type := World -> Statement -> option Exception.

(** [print(line)] on a stdout that may refuse the line. *)
Definition print_line (stdout_error : StdoutError) (line : str) : M unit :=
  fun w =>
    match stdout_error w line with
    | Some e => (Raise e, w)
    | None => (Ok tt, set_stdout (stdout w ++ [line]) w)
    end.

(** ** Document store *)

(** [SELECT COUNT( * ) FROM documents WHERE title = ?] *)
Definition select_count_title (sqlite_error : SqliteError) (t : str) : M nat :=
  fun w =>
    match sqlite_error w (SELECT_COUNT t) with
    | Some e => (Raise e, w)
    | None =>
      (Ok (length (List.filter (fun r => str_eqb (title r) t) (documents w))), w)
    end.

(** The rowid AUTOINCREMENT gives next: one more than the largest ever used. *)
Definition next_rowid (w : World) : N :=
  fold_right N.max (sqlite_sequence w) (map rowid (documents w)) + 1.

(** [INSERT INTO documents (title, content, type) VALUES (?, ?, ?)]: a
    refused statement stores nothing. *)
Definition insert_document (sqlite_error : SqliteError) (t c ty : str) : M unit :=
  fun w =>
    match sqlite_error w (INSERT t c ty) with
    | Some e => (Raise e, w)
    | None =>
      let i := next_rowid w in
      (Ok tt, set_documents
                (documents w ++ [{| rowid := i; title := t; content := c; type := ty |}])
                i w)
    end.

(** [conn.commit()]: the rows this connection wrote are the rows it reads,
    committed or not, so the table of the model does not change; the call
    itself can be refused. *)
Definition conn_commit (sqlite_error : SqliteError) : M unit :=
  fun w =>
    match sqlite_error w COMMIT with
    | Some e => (Raise e, w)
    | None => (Ok tt, w)
    end.

(** [SELECT title, content, type FROM documents] turned into documents. *)
Definition load_documents_from_db : M (list Document) :=
  fun w =>
    (Ok (map (fun row =>
                {| page_content := content row;
                   metadata := dict_of [(py "title", title row); (py "type", type row)] |})
             (documents w)), w).

(** ** Ingestion *)

Definition PDF_PATHS : list str :=
  [ py "pdfs/idees_themes.pdf";
    py "pdfs/budget_mariage.pdf";
    py "pdfs/logistique_conference.pdf";
    py "pdfs/planning_evenement.pdf";
    py "pdfs/to do list mariage.pdf" ].

Section Ingestion.

Variable unicode_lower : UnicodeLower.
(** [os.path.exists] *)
Variable os_path_exists : str -> bool.
(** [PyPDFLoader(path).load()]: the pages of the file, or an exception. *)
Variable PyPDFLoader_load : str -> Result (list Document).
Variable stdout_error : StdoutError.
Variable sqlite_error : SqliteError.

(** One turn of the loop of [insert_pdfs]; the local [missing_files] is
    passed along.  The print for a missing file is outside the [try]; the
    print of the handler is inside the handler, where nothing catches. *)
Definition insert_pdfs_body (pdf_path : str) (missing_files : list str) : M (list str) :=
  if negb (os_path_exists pdf_path) then
    let missing_files := missing_files ++ [pdf_path] in
    print_line stdout_error (py "⚠️ Fichier manquant: " ++ pdf_path);;
    mret missing_files
  else
    try_except
      (docs ← call (PyPDFLoader_load pdf_path);
       let full_text := join [10] (map page_content docs) in
       let title := basename pdf_path in
       let doc_type := detect_type_from_filename unicode_lower title in
       n ← select_count_title sqlite_error title;
       if (n =? 0)%nat then insert_document sqlite_error title full_text doc_type
       else mret tt)
      (fun e =>
         print_line stdout_error
           (py "❌ Erreur lors du traitement de " ++ pdf_path ++ py ": " ++ exc_str e));;
    mret missing_files.

Definition insert_pdfs_loop (paths : list str) : M (list str) :=
  for_each paths insert_pdfs_body [].

Definition insert_pdfs_from (paths : list str) : M unit :=
  missing_files ← insert_pdfs_loop paths;
  conn_commit sqlite_error;;
  match missing_files with
  | [] => mret tt
  | _ :: _ =>
    print_line stdout_error
      (py "⚠️ Fichiers manquants: " ++ join (py ", ") missing_files);;
    print_line stdout_error
      (py "Veuillez vous assurer que tous les fichiers PDF sont présents dans le répertoire.")
  end.

Definition insert_pdfs : M unit := insert_pdfs_from PDF_PATHS.

End Ingestion.

(** ** Prompts *)

Definition prompt_map : gmap (list N) PromptTemplate :=
  dict_of
  [ (py "BUDGET",
     {| input_variables := [py "context"; py "question"];
        template := py "
Tu es eventbot, expert en gestion financière d'événements.
Fais une estimation claire et stratégique selon le contexte.

📚 CONTEXTE:
{context}

❓ QUESTION:
{question}

💰 BUDGET:
" |});
    (py "PLANIFICATION",
     {| input_variables := [py "context"; py "question"];
        template := py "
Tu es eventbot, expert en planification détaillée d'événements.

📚 CONTEXTE:
{context}

❓ QUESTION:
{question}

📅 PLAN D'ACTION:
" |});
    (py "SEMINAIRE",
     {| input_variables := [py "context"; py "question"];
        template := py "
Tu es eventbot , spécialiste de l'organisation de séminaires professionnels.
Base-toi sur le contexte fourni pour répondre à la question suivante.

📚 CONTEXTE:
{context}

❓ QUESTION:
{question}

✅ RÉPONSE:
" |});
    (py "MARIAGE",
     {| input_variables := [py "context"; py "question"];
        template := py "
Tu es eventbot, un expert de l'organisation de mariages inoubliables.

📚 CONTEXTE:
{context}

❓ QUESTION:
{question}

💖 CONSEIL:
" |});
    (py "SALON",
     {| input_variables := [py "context"; py "question"];
        template := py "
Tu es eventbot, expert des salons et expositions.

📚 CONTEXTE:
{context}

❓ QUESTION:
{question}

🏢 STRATÉGIE:
" |});
    (py "CRÉATIVITÉ",
     {| input_variables := [py "context"; py "question"];
        template := py "
Tu es eventbot, un expert en idées thématiques et concepts d'ambiance.

📚 CONTEXTE:
{context}

❓ QUESTION:
{question}

✨ IDÉES:
" |}) ].

#[export] Instance PromptTemplate_inhabited : Inhabited PromptTemplate :=
  populate {| input_variables := []; template := [] |}.

(** [default_prompt = prompt_map["SEMINAIRE"]] *)
Definition default_prompt : PromptTemplate := prompt_map !!! py "SEMINAIRE".

(** ** Retriever *)

Section Retriever.

Variables VectorStore Retriever : Type.
(** [RecursiveCharacterTextSplitter(chunk_size, chunk_overlap).split_documents] *)
Variable split_documents : N -> N -> list Document -> list Document.
(** [FAISS.from_documents(chunks, embeddings)] *)
Variable FAISS_from_documents : list Document -> VectorStore.
(** [vectorstore.as_retriever(search_kwargs={"k": k})] *)
Variable as_retriever : VectorStore -> N -> Retriever.

Definition dummy_doc : Document :=
  {| page_content := py "Bienvenue sur EventBot Pro. Aucun document n'est encore disponible.";
     metadata := dict_of [(py "title", py "Bienvenue"); (py "type", py "SEMINAIRE")] |}.

Definition create_retriever : M Retriever :=
  all_docs ← load_documents_from_db;
  let splitter := split_documents 800 150 in
  match all_docs with
  | _ :: _ =>
    let chunks := splitter all_docs in
    let vectorstore := FAISS_from_documents chunks in
    mret (as_retriever vectorstore 3)
  | [] =>
    let chunks := splitter [dummy_doc] in
    let vectorstore := FAISS_from_documents chunks in
    mret (as_retriever vectorstore 3)
  end.

End Retriever.

(** ** Answering a question *)

Section Chat.

Variable unicode_lower : UnicodeLower.
(** What the chain answers: it is given the number of calls made before,
    the prompt its shared [llm_chain.prompt] field holds at the time of the
    call, and the inputs; it returns the output dict or raises. *)
Variable RetrievalQA : nat -> PromptTemplate -> Dict -> Result Dict.

(** [qa_chain.invoke(inputs)]: the chain reads its own prompt field. *)
Definition qa_chain_invoke (inputs : Dict) : M Dict :=
  fun w =>
    (RetrievalQA (length (invocations w)) (chain_prompt w) inputs,
     set_invocations (invocations w ++ [(chain_prompt w, inputs)]) w).

(** [qa_chain.combine_documents_chain.llm_chain.prompt = p] *)
Definition assign_chain_prompt (p : PromptTemplate) : M unit :=
  fun w => (Ok tt, set_chain_prompt p w).

(** Lines 248-249 of [ask_question]: classify and bind the prompt. *)
Definition ask_question_select (question : str) : M unit :=
  let event_type := detect_event_type unicode_lower question in
  assign_chain_prompt (dict_get prompt_map event_type default_prompt).

(** Lines 251-260 of [ask_question]: generate and extend the history. *)
Definition ask_question_generate (question : str) (chat_display : list Dict)
  : M (list Dict * str) :=
  answer ← try_except
    (result ← qa_chain_invoke (dict_of [(py "query", question); (py "question", question)]);
     mret (dict_get result (py "result") (py "Je n'ai pas de réponse.")))
    (fun e =>
       print (py "Erreur : " ++ exc_str e);;
       mret (py "Erreur lors de la génération."));
  let chat_display :=
    chat_display ++ [dict_of [(py "role", py "user"); (py "content", question)]] in
  let chat_display :=
    chat_display ++ [dict_of [(py "role", py "assistant"); (py "content", answer)]] in
  mret (chat_display, py "").

Definition ask_question (question : str) (chat_display : list Dict) : M (list Dict * str) :=
  if negb (truthy (strip question)) then
    mret (chat_display, py "❗ Entrez une question.")
  else
    ask_question_select question;;
    ask_question_generate question chat_display.

Definition clear_chat : list Dict * str := ([], py "").

(** Requests in flight at once.  A request is the list of the steps it has
    still to run; the host picks, step after step, which request moves.  A
    non-blank call of [ask_question] makes two steps: binding the prompt, and
    generating. *)
Definition request (question : str) (chat_display : list Dict) : list (M unit) :=
  if negb (truthy (strip question)) then []
  else [ ask_question_select question;
         ask_question_generate question chat_display;; mret tt ].

Fixpoint run_schedule (schedule : list nat) (requests : list (list (M unit))) : M unit :=
  match schedule with
  | [] => mret tt
  | i :: schedule' =>
    match requests !! i with
    | Some (step :: rest) => step;; run_schedule schedule' (<[ i := rest ]> requests)
    | _ => run_schedule schedule' requests
    end
  end.

End Chat.

(** The state at start-up, before ingestion, on an empty store. *)
Definition initial_world : World :=
  {| documents := []; sqlite_sequence := 0; stdout := [];
     chain_prompt := default_prompt; invocations := [] |}.

(** ** Vocabulary of the statements *)

(** A keyword that lower-casing leaves as it is: ASCII, no capital letter. *)
Definition plain_lower (kw : str) : bool :=
  forallb (fun c => (c <? 128) && negb ((65 <=? c) && (c <=? 90))) kw.

(** A blank question: empty, or white space only. *)
Definition blank (s : str) : bool := forallb isspace s.

(** A word that is itself a keyword of some question rule. *)
Definition is_question_keyword (w : str) : bool :=
  existsb (fun rule => existsb (str_eqb w) (fst rule)) question_rules.

Definition is_filename_keyword (w : str) : bool :=
  existsb (fun rule => existsb (str_eqb w) (fst rule)) filename_rules.

Definition titles (w : World) : list str := map title (documents w).

(** The number of rows of the table that carry title [t]. *)
Definition count_title (t : str) (w : World) : nat :=
  length (List.filter (fun r => str_eqb (title r) t) (documents w)).

Definition missing_line (p : str) : str := py "⚠️ Fichier manquant: " ++ p.

Definition error_line (p : str) (e : Exception) : str :=
  py "❌ Erreur lors du traitement de " ++ p ++ py ": " ++ exc_str e.

Section IngestionVocabulary.

Variable unicode_lower : UnicodeLower.
Variable os_path_exists : str -> bool.
Variable PyPDFLoader_load : str -> Result (list Document).
Variable stdout_error : StdoutError.
Variable sqlite_error : SqliteError.

(** What one turn of the loop prints for a path when the database accepts
    its statements. *)
Definition report (p : str) : list str :=
  if negb (os_path_exists p) then [py "⚠️ Fichier manquant: " ++ p]
  else
    match PyPDFLoader_load p with
    | Raise e => [py "❌ Erreur lors du traitement de " ++ p ++ py ": " ++ exc_str e]
    | Ok _ => []
    end.

(** The row one turn of the loop inserts for a file extracted as [docs]. *)
Definition new_row (p : str) (docs : list Document) (w : World) : Row :=
  {| rowid := next_rowid w;
     title := basename p;
     content := join [10] (map page_content docs);
     type := detect_type_from_filename unicode_lower (basename p) |}.

(** The exception the [try] block of a turn raises, if any: from the
    extraction, from the lookup of the title, or from the insertion. *)
Definition try_raises (p : str) (w : World) : option Exception :=
  match PyPDFLoader_load p with
  | Raise e => Some e
  | Ok docs =>
    match sqlite_error w (SELECT_COUNT (basename p)) with
    | Some e => Some e
    | None =>
      if (count_title (basename p) w =? 0)%nat
      then sqlite_error w (INSERT (basename p) (join [10] (map page_content docs))
                                  (detect_type_from_filename unicode_lower (basename p)))
      else None
    end
  end.

(** The state after a line is printed, or refused. *)
Definition printed (line : str) (w : World) : World :=
  match stdout_error w line with
  | Some _ => w
  | None => set_stdout (stdout w ++ [line]) w
  end.

(** The state one turn of the loop leaves behind. *)
Definition body_effect (p : str) (w : World) : World :=
  if negb (os_path_exists p) then printed (missing_line p) w
  else
    match try_raises p w with
    | Some e => printed (error_line p e) w
    | None =>
      match PyPDFLoader_load p with
      | Ok docs =>
        if (count_title (basename p) w =? 0)%nat
        then set_documents (documents w ++ [new_row p docs w]) (next_rowid w) w
        else w
      | Raise _ => w
      end
    end.

(** The exception that leaves one turn of the loop, if any: only a
    refused print can. *)
Definition body_raise (p : str) (w : World) : option Exception :=
  if negb (os_path_exists p) then stdout_error w (missing_line p)
  else
    match try_raises p w with
    | Some e => stdout_error w (error_line p e)
    | None => None
    end.

(** The state the loop leaves behind, and the exception that ends it
    early, if any: the turns are run in order up to the first that raises. *)
Fixpoint loop_effect (paths : list str) (w : World) : World :=
  match paths with
  | [] => w
  | p :: paths' =>
    match body_raise p w with
    | Some _ => body_effect p w
    | None => loop_effect paths' (body_effect p w)
    end
  end.

Fixpoint loop_raise (paths : list str) (w : World) : option Exception :=
  match paths with
  | [] => None
  | p :: paths' =>
    match body_raise p w with
    | Some e => Some e
    | None => loop_raise paths' (body_effect p w)
    end
  end.

(** What [insert_pdfs] prints after the loop. *)
Definition summary (missing_files : list str) : list str :=
  match missing_files with
  | [] => []
  | _ :: _ =>
    [ py "⚠️ Fichiers manquants: " ++ join (py ", ") missing_files;
      py "Veuillez vous assurer que tous les fichiers PDF sont présents dans le répertoire." ]
  end.

End IngestionVocabulary.

(** A stdout that takes every line; a database that accepts the lookup and
    the insertion of a title, the commit, every statement. *)
Definition stdout_accepts_all (out : StdoutError) : Prop :=
  forall w line, out w line = None.

Definition db_accepts_title (db : SqliteError) (t : str) : Prop :=
  forall w c ty, db w (SELECT_COUNT t) = None /\ db w (INSERT t c ty) = None.

Definition db_commits (db : SqliteError) : Prop := forall w, db w COMMIT = None.

Definition db_accepts_all (db : SqliteError) : Prop := forall w s, db w s = None.

(** The states of the store the program can be in: the table starts empty
    (CREATE TABLE IF NOT EXISTS on a new file) and is touched only by the
    operations of the program, run any number of times, over any file
    system, console and database and with any collaborators. *)
Inductive reachable : World -> Prop :=
| reach_start w : documents w = [] -> reachable w
| reach_insert_pdfs tbl ex ld out db paths w :
    reachable w -> reachable (exec (insert_pdfs_from tbl ex ld out db paths) w)
| reach_create_retriever (VS R : Type) sp fa ar w :
    reachable w -> reachable (exec (create_retriever VS R sp fa ar) w)
| reach_ask_question tbl qa q hist w :
    reachable w -> reachable (exec (ask_question tbl qa q hist) w).

(** The chain as a collaborator: see [RetrievalQA] in section [Chat]. *)
Definition Chain : Type := nat -> PromptTemplate -> Dict -> Result Dict.

(** The prompt [ask_question] binds for a question, the inputs it hands to
    the chain, and the two turns it appends. *)
Definition bound_prompt (tbl : UnicodeLower) (question : str) : PromptTemplate :=
  dict_get prompt_map (detect_event_type tbl question) default_prompt.

Definition query_inputs (question : str) : Dict :=
  dict_of [(py "query", question); (py "question", question)].

Definition user_turn (question : str) : Dict :=
  dict_of [(py "role", py "user"); (py "content", question)].

Definition assistant_turn (answer : str) : Dict :=
  dict_of [(py "role", py "assistant"); (py "content", answer)].

(** The state a non-blank call leaves in the shared fields: the prompt
    bound, the call logged. *)
Definition after_call (tbl : UnicodeLower) (q : str) (w : World) : World :=
  set_invocations (invocations w ++ [(bound_prompt tbl q, query_inputs q)])
                  (set_chain_prompt (bound_prompt tbl q) w).

(** A small file system to run examples on: the paths that mention
    "mariage" exist, and of those the to-do list cannot be read. *)
Definition demo_exists (p : str) : bool := str_in (py "mariage") p.

Definition demo_load (p : str) : Result (list Document) :=
  if str_in (py "to do") p then Raise {| exc_str := py "EOF marker not found" |}
  else Ok [ {| page_content := py "Traiteur"; metadata := ∅ |};
            {| page_content := py "Salle"; metadata := ∅ |} ].

(** Requests served one at a time, each call run to its end before the next. *)
Definition serve (tbl : UnicodeLower) (qa : Chain)
           (calls : list (list N * list Dict)) : M unit :=
  for_each calls (fun c _ => ask_question tbl qa (fst c) (snd c);; mret tt) tt.

(** The generation calls a run of the server adds to the log. *)
Definition new_invocations (before after : World) : list (PromptTemplate * Dict) :=
  drop (length (invocations before)) (invocations after).

(** A logged generation call that ran under the template of its own question. *)
Definition own_template (tbl : UnicodeLower) (inv : PromptTemplate * Dict) : Prop :=
  exists question, snd inv = query_inputs question /\ fst inv = bound_prompt tbl question.

(** The binding of the prompt is for the call only: a call leaves the
    prompt field of the shared chain as it found it. *)
Definition binding_is_call_local
           (tbl : UnicodeLower) (qa : Chain) : Prop :=
  forall question chat_display w,
    chain_prompt (exec (ask_question tbl qa question chat_display) w) = chain_prompt w.

(** No request observes the template of another: however the steps of the
    requests in flight are interleaved, every generation call runs under
    the template of its own question. *)
Definition no_request_sees_another
           (tbl : UnicodeLower) (qa : Chain) : Prop :=
  forall (calls : list (list N * list Dict)) (schedule : list nat) (w : World),
    Forall (own_template tbl)
           (new_invocations w
              (exec (run_schedule schedule
                       (map (fun c => request tbl qa (fst c) (snd c)) calls)) w)).

(** A chain that always fails, and one that always answers "ok". *)
Definition failing_chain : Chain :=
  fun _ _ _ => Raise {| exc_str := py "connection refused" |}.

Definition echo_chain : Chain :=
  fun _ _ _ => Ok (dict_of [(py "result", py "ok")]).

(** ** Start-up and the form

    The module runs, in this order, [insert_pdfs()], [create_retriever()]
    and the construction of [qa_chain] with [default_prompt] as its prompt
    (lines 92 and 206-213). *)

Section Startup.

Variable unicode_lower : UnicodeLower.
Variable os_path_exists : str -> bool.
Variable PyPDFLoader_load : str -> Result (list Document).
Variable stdout_error : StdoutError.
Variable sqlite_error : SqliteError.
Variables VectorStore Retriever : Type.
Variable split_documents : N -> N -> list Document -> list Document.
Variable FAISS_from_documents : list Document -> VectorStore.
Variable as_retriever : VectorStore -> N -> Retriever.

Definition startup : M Retriever :=
  insert_pdfs unicode_lower os_path_exists PyPDFLoader_load stdout_error sqlite_error;;
  retriever ← create_retriever VectorStore Retriever split_documents
                               FAISS_from_documents as_retriever;
  assign_chain_prompt default_prompt;;
  mret retriever.

End Startup.

(** The form hands the history it shows to [ask_question] together with
    each question and shows what the handler returns (lines 265-267): a
    conversation is the handler run on one question after the other, each
    time on the history the call before returned. *)
Fixpoint converse (tbl : UnicodeLower) (qa : Chain) (questions : list (list N))
         (chat_display : list Dict) : M (list Dict) :=
  match questions with
  | [] => mret chat_display
  | question :: rest =>
    r ← ask_question tbl qa question chat_display;
    converse tbl qa rest (fst r)
  end.

(** A path the loop can store: the file exists and is extracted. *)
Definition readable (ex : list N -> bool) (ld : list N -> Result (list Document))
           (p : str) : Prop :=
  ex p = true /\ exists docs, ld p = Ok docs.

(** A text of ASCII code points only. *)
Definition ascii_only (s : str) : bool := forallb (fun c => c <? 128) s.

(** The number of places of [s] at which [p] starts. *)
Fixpoint occurrences (p s : str) : nat :=
  match s with
  | [] => 0%nat
  | _ :: s' => ((if startswith p s then 1 else 0) + occurrences p s')%nat
  end.

(** A template of the prompt map. *)
Definition known_template (p : PromptTemplate) : Prop :=
  exists key, prompt_map !! key = Some p.

(** A step that, started with a template of the map in the chain, leaves
    one there and runs the generation calls it makes under such templates. *)
Definition keeps_known_templates (step : M unit) : Prop :=
  forall w,
    known_template (chain_prompt w) ->
    known_template (chain_prompt (exec step w))
    /\ exists extra,
         invocations (exec step w) = invocations w ++ extra
         /\ Forall (fun inv => known_template (fst inv)) extra.

(** The rowids grow along the table. *)
Definition rowids_increase (rows : list Row) : Prop :=
  forall i j ri rj,
    (i < j)%nat -> rows !! i = Some ri -> rows !! j = Some rj -> rowid ri < rowid rj.

(** A chain whose output has no "result" entry. *)
Definition mute_chain : Chain := fun _ _ _ => Ok ∅.

(** Consoles and databases to run examples on.  A stdout that takes every
    line and a database that accepts every statement; a stdout with the
    ASCII encoding; a database that, as sqlite3 does when it binds a text
    parameter, refuses a text with a surrogate code point; a database that
    is locked until the first error has been printed. *)
Definition no_stdout_error : StdoutError := fun _ _ => None.

Definition no_sqlite_error : SqliteError := fun _ _ => None.

Definition ascii_stdout : StdoutError := fun _ line =>
  if ascii_only line then None
  else Some {| exc_str := py "'ascii' codec can't encode character" |}.

Definition is_surrogate (c : N) : bool := (55296 <=? c) && (c <=? 57343).

Definition strict_utf8_db : SqliteError := fun _ s =>
  let refused := Some {| exc_str := py "'utf-8' codec can't encode character: surrogates not allowed" |} in
  match s with
  | SELECT_COUNT t => if existsb is_surrogate t then refused else None
  | INSERT t c ty => if existsb is_surrogate (t ++ c ++ ty) then refused else None
  | COMMIT => None
  end.

Definition locked_once_db : SqliteError := fun w s =>
  match s, stdout w with
  | INSERT _ _ _, [] => Some {| exc_str := py "database is locked" |}
  | _, _ => None
  end.

(** A loader whose page holds a lone surrogate, as a damaged PDF gives. *)
Definition surrogate_load (p : str) : Result (list Document) :=
  Ok [ {| page_content := py "Menu " ++ [56320]; metadata := ∅ |} ].

(** * Facts *)

(** ** Strings *)

Lemma str_eqb_eq (a b : str) : str_eqb a b = true <-> a = b.
Proof.
  revert b; induction a as [|x a IH]; intros [|y b]; simpl; split; intros H;
    try reflexivity; try discriminate.
  - apply andb_true_iff in H as [Hx Hab].
    apply N.eqb_eq in Hx. apply IH in Hab. congruence.
  - injection H as -> ->. rewrite N.eqb_refl. simpl. now apply IH.
Qed.

Lemma str_eqb_refl (a : str) : str_eqb a a = true.
Proof. now apply str_eqb_eq. Qed.

Lemma startswith_spec (p s : str) : startswith p s = true <-> exists b, s = p ++ b.
Proof.
  revert s; induction p as [|x p IH]; intros s; simpl.
  - split; [intros _; now exists s | reflexivity].
  - destruct s as [|y s].
    + split; [discriminate | intros [b Hb]; discriminate].
    + rewrite andb_true_iff, N.eqb_eq, IH. split.
      * intros [-> [b ->]]. now exists b.
      * intros [b Hb]. injection Hb as -> ->. split; [reflexivity | now exists b].
Qed.

Lemma str_in_spec (p s : str) : str_in p s = true <-> exists a b, s = a ++ p ++ b.
Proof.
  induction s as [|y s IH]; simpl.
  - rewrite orb_false_r, startswith_spec. split.
    + intros [b Hb]. now exists [], b.
    + intros [a [b Hab]]. destruct a; [now exists b | discriminate].
  - rewrite orb_true_iff, startswith_spec, IH. split.
    + intros [[b Hb] | [a [b ->]]].
      * now exists [], b.
      * now exists (y :: a), b.
    + intros [[|z a] [b Hab]].
      * left. now exists b.
      * right. injection Hab as -> ->. now exists a, b.
Qed.

Lemma str_in_app (p a b : str) : str_in p (a ++ p ++ b) = true.
Proof. apply str_in_spec. now exists a, b. Qed.

Lemma lower_from_app (tbl : UnicodeLower) (whole : str) (a b : str) (i : nat) :
  lower_from tbl whole i (a ++ b)
  = lower_from tbl whole i a ++ lower_from tbl whole (i + length a)%nat b.
Proof.
  revert i; induction a as [|c a IH]; intros i; simpl.
  - now rewrite Nat.add_0_r.
  - rewrite IH, <- app_assoc. do 3 f_equal. lia.
Qed.

Lemma lower_from_plain (tbl : UnicodeLower) (whole : str) (kw : str) (i : nat) :
  plain_lower kw = true -> lower_from tbl whole i kw = kw.
Proof.
  revert i; induction kw as [|c kw IH]; intros i H; simpl in *; [reflexivity|].
  apply andb_true_iff in H as [Hc Hkw].
  apply andb_true_iff in Hc as [Hascii Hcap].
  unfold lower_ucs4, ascii_lower. rewrite Hascii.
  apply negb_true_iff in Hcap. rewrite Hcap. simpl. now rewrite IH.
Qed.

(** A plain keyword that occurs in a text still occurs after lower-casing. *)
Lemma str_in_lower (tbl : UnicodeLower) (kw s : str) :
  plain_lower kw = true -> str_in kw s = true -> str_in kw (lower tbl s) = true.
Proof.
  intros Hkw Hin. apply str_in_spec in Hin as [a [b Hs]].
  unfold lower. rewrite Hs at 2.
  rewrite !lower_from_app, (lower_from_plain _ _ kw) by exact Hkw.
  apply str_in_app.
Qed.

Lemma lower_app_plain (tbl : UnicodeLower) (kw pre post : str) :
  plain_lower kw = true -> str_in kw (lower tbl (pre ++ kw ++ post)) = true.
Proof. intros Hkw. apply str_in_lower; [exact Hkw | apply str_in_app]. Qed.

Lemma lower_from_ascii (tbl : UnicodeLower) (whole : str) (i : nat) (s : str) :
  ascii_only s = true -> lower_from tbl whole i s = map ascii_lower s.
Proof.
  revert i; induction s as [|c s IH]; intros i H; simpl in *; [reflexivity|].
  apply andb_true_iff in H as [Hc Hs]. unfold lower_ucs4. rewrite Hc. simpl.
  now rewrite IH.
Qed.

Lemma lower_ascii (tbl : UnicodeLower) (s : str) :
  ascii_only s = true -> lower tbl s = map ascii_lower s.
Proof. apply lower_from_ascii. Qed.

(** Capital ASCII letters of a text do not hide a keyword: if a run of
    ASCII code points lower-cases to [kw], [kw] occurs in the lower-cased
    text. *)
Lemma lower_app_ascii (tbl : UnicodeLower) (kw pre mid post : str) :
  ascii_only mid = true -> map ascii_lower mid = kw ->
  str_in kw (lower tbl (pre ++ mid ++ post)) = true.
Proof.
  intros Hmid <-. unfold lower. rewrite !lower_from_app.
  rewrite (lower_from_ascii _ _ _ mid) by exact Hmid. apply str_in_app.
Qed.

Lemma any_in_cons (kw : str) (kws : list str) (q : str) :
  any_in (kw :: kws) q = str_in kw q || any_in kws q.
Proof. reflexivity. Qed.

Lemma any_in_nil (q : str) : any_in [] q = false.
Proof. reflexivity. Qed.

(** ** Classifier *)

Section ClassifierFacts.

Variable unicode_lower : UnicodeLower.

Lemma detect_type_from_filename_table (f : str) :
  detect_type_from_filename unicode_lower f = label (classify_by_filename unicode_lower f).
Proof.
  unfold detect_type_from_filename, classify_by_filename, filename_rules.
  cbn [first_match]. rewrite !any_in_cons, !any_in_nil, !orb_false_r.
  repeat (destruct (str_in _ _); cbn [orb label]; try reflexivity).
Qed.

Lemma detect_event_type_table (q : str) :
  detect_event_type unicode_lower q = label (classify_by_question unicode_lower q).
Proof.
  unfold detect_event_type, classify_by_question, question_rules.
  cbn [first_match].
  repeat (destruct (any_in _ _); cbn [label]; try reflexivity).
Qed.

End ClassifierFacts.

Lemma first_match_wins (rules pre post : list (list str * Category))
      (kws : list str) (c : Category) (text : str) :
  rules = pre ++ (kws, c) :: post ->
  (forall rule, rule ∈ pre -> any_in (fst rule) text = false) ->
  any_in kws text = true ->
  first_match rules text = c.
Proof.
  intros -> Hpre Hkws. induction pre as [|[kws' c'] pre IH]; simpl.
  - now rewrite Hkws.
  - pose proof (Hpre (kws', c') ltac:(left)) as Hhd. simpl in Hhd. rewrite Hhd.
    apply IH. intros rule Hin. apply Hpre. now right.
Qed.

Lemma first_match_none (rules : list (list str * Category)) (text : str) :
  (forall rule, rule ∈ rules -> any_in (fst rule) text = false) ->
  first_match rules text = SEMINAR.
Proof.
  induction rules as [|[kws c] rules IH]; intros H; simpl; [reflexivity|].
  pose proof (H (kws, c) ltac:(left)) as Hhd. simpl in Hhd. rewrite Hhd.
  apply IH. intros rule Hin. apply H. now right.
Qed.

(** C1: [detect_type_from_filename] lower-cases the name and evaluates the
    filename rules from top to bottom in the fixed order; the first rule
    with a keyword in the name wins and SEMINAIRE is returned when none
    matches.  Every name containing "mariage" (in any case) is MARIAGE, also
    "mariage_budget.pdf", and "rapport.pdf" is SEMINAIRE. *)
Theorem detect_type_from_filename_first_match (tbl : UnicodeLower) :
  (forall f, detect_type_from_filename tbl f
             = label (first_match filename_rules (lower tbl f)))
  /\ (forall f pre kws c post,
        filename_rules = pre ++ (kws, c) :: post ->
        (forall rule, rule ∈ pre -> any_in (fst rule) (lower tbl f) = false) ->
        any_in kws (lower tbl f) = true ->
        detect_type_from_filename tbl f = label c)
  /\ (forall f,
        (forall rule, rule ∈ filename_rules -> any_in (fst rule) (lower tbl f) = false) ->
        detect_type_from_filename tbl f = py "SEMINAIRE")
  /\ (forall f, str_in (py "mariage") (lower tbl f) = true ->
                detect_type_from_filename tbl f = py "MARIAGE")
  /\ (forall f, str_in (py "mariage") f = true ->
                detect_type_from_filename tbl f = py "MARIAGE")
  /\ detect_type_from_filename tbl (py "mariage_budget.pdf") = py "MARIAGE"
  /\ detect_type_from_filename tbl (py "rapport.pdf") = py "SEMINAIRE".
Proof.
  assert (Hlow : forall f, str_in (py "mariage") (lower tbl f) = true ->
                           detect_type_from_filename tbl f = py "MARIAGE").
  { intros f H. unfold detect_type_from_filename. cbv zeta. now rewrite H. }
  split_and!.
  - apply detect_type_from_filename_table.
  - intros f pre kws c post Hrules Hpre Hkws.
    rewrite detect_type_from_filename_table. unfold classify_by_filename.
    f_equal. eapply first_match_wins; eassumption.
  - intros f H. rewrite detect_type_from_filename_table. unfold classify_by_filename.
    now rewrite first_match_none.
  - exact Hlow.
  - intros f H. apply Hlow. apply str_in_lower; [reflexivity | exact H].
  - reflexivity.
  - reflexivity.
Qed.

Lemma detect_type_from_filename_first_match_witness :
  str_in (py "mariage") (py "Budget_MARIAGE.pdf") = false
  /\ str_in (py "mariage") (lower latin1_lower (py "Budget_MARIAGE.pdf")) = true
  /\ detect_type_from_filename latin1_lower (py "Budget_MARIAGE.pdf") = py "MARIAGE".
Proof.
  split; [reflexivity | split; [reflexivity |]].
  apply (proj1 (proj2 (proj2 (proj2
           (detect_type_from_filename_first_match latin1_lower))))).
  reflexivity.
Defined.

(** C2: [detect_event_type] lower-cases the question and evaluates the
    question rules in the fixed order, the first match wins, SEMINAIRE
    otherwise; "Quel budget pour un mariage?" is MARIAGE because the wedding
    keywords are tried before the budget keywords. *)
Theorem detect_event_type_first_match (tbl : UnicodeLower) :
  (forall q, detect_event_type tbl q
             = label (first_match question_rules (lower tbl q)))
  /\ (forall q pre kws c post,
        question_rules = pre ++ (kws, c) :: post ->
        (forall rule, rule ∈ pre -> any_in (fst rule) (lower tbl q) = false) ->
        any_in kws (lower tbl q) = true ->
        detect_event_type tbl q = label c)
  /\ (forall q,
        (forall rule, rule ∈ question_rules -> any_in (fst rule) (lower tbl q) = false) ->
        detect_event_type tbl q = py "SEMINAIRE")
  /\ (forall q,
        any_in [py "mariage"; py "noces"; py "fiançailles"] (lower tbl q) = true ->
        detect_event_type tbl q = py "MARIAGE")
  /\ str_in (py "budget") (lower tbl (py "Quel budget pour un mariage?")) = true
  /\ detect_event_type tbl (py "Quel budget pour un mariage?") = py "MARIAGE".
Proof.
  split_and!.
  - apply detect_event_type_table.
  - intros q pre kws c post Hrules Hpre Hkws.
    rewrite detect_event_type_table. unfold classify_by_question.
    f_equal. eapply first_match_wins; eassumption.
  - intros q H. rewrite detect_event_type_table. unfold classify_by_question.
    now rewrite first_match_none.
  - intros q H. unfold detect_event_type. cbv zeta. now rewrite H.
  - reflexivity.
  - reflexivity.
Qed.

Lemma detect_event_type_first_match_witness :
  any_in [py "mariage"; py "noces"; py "fiançailles"]
         (lower latin1_lower (py "Budget des FIANÇAILLES")) = true
  /\ detect_event_type latin1_lower (py "Budget des FIANÇAILLES") = py "MARIAGE".
Proof.
  split; [reflexivity |].
  apply (proj1 (proj2 (proj2 (proj2 (detect_event_type_first_match latin1_lower))))).
  reflexivity.
Defined.

(** C10: keywords are matched as substrings of the lower-cased input, not
    as whole words and not on the input as typed.  No keyword occurs in
    "Un STANDARD" as typed and none of its lower-cased words is a keyword,
    yet the question is SALON and not the SEMINAIRE fallback, because
    "stand" occurs inside the lower-cased text; whatever surrounds a run of
    letters that lower-cases to "stand", the question is never left to the
    fallback.  Filenames behave alike: "BUDGETS.PDF" is BUDGET, and a run
    of letters that lower-cases to "mariage", inside any run of characters,
    makes the name MARIAGE. *)
Theorem keyword_matching_is_substring (tbl : UnicodeLower) :
  forallb (fun rule => negb (any_in (fst rule) (py "Un STANDARD"))) question_rules = true
  /\ split (lower tbl (py "Un STANDARD")) = [py "un"; py "standard"]
  /\ forallb (fun w => negb (is_question_keyword w)) (split (lower tbl (py "Un STANDARD")))
     = true
  /\ detect_event_type tbl (py "Un STANDARD") = py "SALON"
  /\ detect_event_type tbl (py "Un STANDARD") <> py "SEMINAIRE"
  /\ detect_event_type tbl (py "standard") = py "SALON"
  /\ (forall pre mid post,
        ascii_only mid = true -> map ascii_lower mid = py "stand" ->
        detect_event_type tbl (pre ++ mid ++ post) = py "MARIAGE"
        \/ detect_event_type tbl (pre ++ mid ++ post) = py "SALON")
  /\ forallb (fun rule => negb (any_in (fst rule) (py "BUDGETS.PDF"))) filename_rules = true
  /\ is_filename_keyword (lower tbl (py "BUDGETS.PDF")) = false
  /\ is_filename_keyword (lower tbl (py "BUDGETS")) = false
  /\ detect_type_from_filename tbl (py "BUDGETS.PDF") = py "BUDGET"
  /\ detect_type_from_filename tbl (py "budgets.pdf") = py "BUDGET"
  /\ (forall pre mid post,
        ascii_only mid = true -> map ascii_lower mid = py "mariage" ->
        detect_type_from_filename tbl (pre ++ mid ++ post) = py "MARIAGE").
Proof.
  split_and!; try reflexivity.
  - intros H. discriminate H.
  - intros pre mid post Hascii Hmid. unfold detect_event_type. cbv zeta.
    destruct (any_in [py "mariage"; py "noces"; py "fiançailles"] _); [now left | right].
    rewrite !any_in_cons, (lower_app_ascii tbl (py "stand") pre mid post Hascii Hmid).
    now rewrite !orb_true_r.
  - intros pre mid post Hascii Hmid. unfold detect_type_from_filename. cbv zeta.
    now rewrite (lower_app_ascii tbl (py "mariage") pre mid post Hascii Hmid).
Qed.

Lemma keyword_matching_is_substring_witness :
  str_in (py "mariage") (py "Nos reMARIAGEs.PDF") = false
  /\ str_in (py "mariage") (lower latin1_lower (py "Nos reMARIAGEs.PDF")) = true
  /\ detect_type_from_filename latin1_lower (py "Nos reMARIAGEs.PDF") = py "MARIAGE"
  /\ str_in (py "décoration") (py "Mes DÉCORATIONS") = false
  /\ detect_event_type latin1_lower (py "Mes DÉCORATIONS") = py "CRÉATIVITÉ".
Proof.
  split; [reflexivity|]. split; [reflexivity|]. split; [|split; reflexivity].
  exact (proj2 (proj2 (proj2 (proj2 (proj2 (proj2 (proj2 (proj2 (proj2 (proj2 (proj2 (proj2
           (keyword_matching_is_substring latin1_lower))))))))))))
           (py "Nos re") (py "MARIAGE") (py "s.PDF") eq_refl eq_refl).
Defined.

(** ** Document store and ingestion *)

Lemma filter_title_none (t : str) (rows : list Row) :
  length (List.filter (fun r => str_eqb (title r) t) rows) = 0%nat <-> t ∉ map title rows.
Proof.
  induction rows as [|r rows IH]; simpl.
  - split; [intros _ H; inversion H | reflexivity].
  - rewrite not_elem_of_cons. destruct (str_eqb (title r) t) eqn:E; simpl.
    + apply str_eqb_eq in E. split; [discriminate | intros [Hne _]; congruence].
    + rewrite IH. split; [intros H; split; [|exact H] | now intros [_ H]].
      intros ->. now rewrite str_eqb_refl in E.
Qed.

Lemma filter_title_one (t : str) (rows : list Row) :
  NoDup (map title rows) -> t ∈ map title rows ->
  length (List.filter (fun r => str_eqb (title r) t) rows) = 1%nat.
Proof.
  induction rows as [|r rows IH]; simpl; intros Hnd Hin.
  - inversion Hin.
  - apply NoDup_cons in Hnd as [Hr Hnd].
    destruct (str_eqb (title r) t) eqn:E; simpl.
    + apply str_eqb_eq in E. subst t. f_equal. now apply filter_title_none.
    + apply IH; [exact Hnd|]. apply elem_of_cons in Hin as [->|Hin]; [|exact Hin].
      now rewrite str_eqb_refl in E.
Qed.

Lemma count_title_zero (t : str) (w : World) :
  (count_title t w =? 0)%nat = true <-> t ∉ titles w.
Proof. rewrite Nat.eqb_eq. apply filter_title_none. Qed.

Lemma count_title_one (t : str) (w : World) :
  NoDup (titles w) -> t ∈ titles w -> count_title t w = 1%nat.
Proof. apply filter_title_one. Qed.

Lemma titles_snoc (rows : list Row) (r : Row) :
  map title (rows ++ [r]) = map title rows ++ [title r].
Proof. now rewrite map_app. Qed.

Lemma filter_title_le_one (t : str) (rows : list Row) :
  NoDup (map title rows) ->
  (length (List.filter (fun r => str_eqb (title r) t) rows) <= 1)%nat.
Proof.
  intros Hnd. destruct (decide (t ∈ map title rows)) as [Hin | Hout].
  - now rewrite filter_title_one.
  - apply filter_title_none in Hout. lia.
Qed.

Lemma prefix_titles (w w' : World) (t : str) :
  documents w `prefix_of` documents w' -> t ∈ titles w -> t ∈ titles w'.
Proof.
  intros [k Hk] Hin. unfold titles in *. rewrite Hk, map_app.
  apply elem_of_app. now left.
Qed.

Section IngestionFacts.

Variable unicode_lower : UnicodeLower.
Variable os_path_exists : str -> bool.
Variable PyPDFLoader_load : str -> Result (list Document).
Variable stdout_error : StdoutError.
Variable sqlite_error : SqliteError.

Local Abbreviation body :=
  (insert_pdfs_body unicode_lower os_path_exists PyPDFLoader_load stdout_error sqlite_error).
Local Abbreviation effect :=
  (body_effect unicode_lower os_path_exists PyPDFLoader_load stdout_error sqlite_error).
Local Abbreviation raises :=
  (body_raise unicode_lower os_path_exists PyPDFLoader_load stdout_error sqlite_error).
Local Abbreviation fails :=
  (try_raises unicode_lower PyPDFLoader_load sqlite_error).
Local Abbreviation loop :=
  (insert_pdfs_loop unicode_lower os_path_exists PyPDFLoader_load stdout_error sqlite_error).
Local Abbreviation ingest :=
  (insert_pdfs_from unicode_lower os_path_exists PyPDFLoader_load stdout_error sqlite_error).
Local Abbreviation run :=
  (loop_effect unicode_lower os_path_exists PyPDFLoader_load stdout_error sqlite_error).
Local Abbreviation run_raises :=
  (loop_raise unicode_lower os_path_exists PyPDFLoader_load stdout_error sqlite_error).
Local Abbreviation missing paths := (List.filter (fun p => negb (os_path_exists p)) paths).
Local Abbreviation can_read := (readable os_path_exists PyPDFLoader_load).
Local Abbreviation inserted p docs :=
  (INSERT (basename p) (join [10] (map page_content docs))
          (detect_type_from_filename unicode_lower (basename p))).

(** The monadic turn and loop against their description. *)

Lemma insert_pdfs_body_run (p : str) (acc : list str) (w : World) :
  body p acc w
  = (match raises p w with
     | Some e => Raise e
     | None => Ok (if negb (os_path_exists p) then acc ++ [p] else acc)
     end, effect p w).
Proof.
  unfold insert_pdfs_body, body_effect, body_raise, try_raises, printed.
  destruct (os_path_exists p); simpl.
  - unfold mbind, M_bind, try_except, call, select_count_title, insert_document,
      print_line, mret, M_ret.
    destruct (PyPDFLoader_load p) as [docs|e]; simpl.
    + destruct (sqlite_error w (SELECT_COUNT (basename p))) as [e|]; simpl.
      * destruct (stdout_error w _); reflexivity.
      * fold (count_title (basename p) w).
        destruct (count_title (basename p) w =? 0)%nat; simpl; [|reflexivity].
        destruct (sqlite_error w _) as [e|]; simpl; [|reflexivity].
        destruct (stdout_error w _); reflexivity.
    + destruct (stdout_error w _); reflexivity.
  - unfold mbind, M_bind, print_line, mret, M_ret.
    destruct (stdout_error w _); reflexivity.
Qed.

Lemma for_each_body_run (paths : list str) (acc : list str) (w : World) :
  for_each paths body acc w
  = (match run_raises paths w with
     | Some e => Raise e
     | None => Ok (acc ++ missing paths)
     end, run paths w).
Proof.
  revert acc w; induction paths as [|p paths IH]; intros acc w; simpl.
  - now rewrite app_nil_r.
  - unfold mbind, M_bind. rewrite insert_pdfs_body_run.
    destruct (raises p w) as [e|]; [reflexivity|]. rewrite IH.
    destruct (run_raises paths (effect p w)); [reflexivity|].
    destruct (os_path_exists p); simpl; [reflexivity | now rewrite <- app_assoc].
Qed.

Lemma insert_pdfs_loop_run (paths : list str) (w : World) :
  loop paths w
  = (match run_raises paths w with
     | Some e => Raise e
     | None => Ok (missing paths)
     end, run paths w).
Proof. unfold insert_pdfs_loop. now rewrite for_each_body_run. Qed.

(** After the loop only lines are printed: the table and the chain are as
    the loop left them, whether [insert_pdfs] returns or raises. *)
Lemma insert_pdfs_from_fields (paths : list str) (w : World) :
  documents (exec (ingest paths) w) = documents (run paths w)
  /\ sqlite_sequence (exec (ingest paths) w) = sqlite_sequence (run paths w)
  /\ chain_prompt (exec (ingest paths) w) = chain_prompt (run paths w)
  /\ invocations (exec (ingest paths) w) = invocations (run paths w)
  /\ stdout (run paths w) `prefix_of` stdout (exec (ingest paths) w).
Proof.
  unfold exec, insert_pdfs_from, mbind, M_bind. rewrite insert_pdfs_loop_run.
  destruct (run_raises paths w); simpl; [now split_and!|].
  unfold conn_commit.
  destruct (sqlite_error (run paths w) COMMIT); simpl; [now split_and!|].
  destruct (missing paths) as [|m ms]; simpl; [now split_and!|].
  unfold print_line.
  destruct (stdout_error (run paths w) _); simpl; [now split_and!|].
  destruct (stdout_error _ _); simpl; split_and!; try reflexivity.
  - now apply prefix_app_r.
  - apply prefix_app_r. now apply prefix_app_r.
Qed.

(** What a turn of the loop does to each part of the state. *)

Lemma printed_fields (line : str) (w : World) :
  documents (printed stdout_error line w) = documents w
  /\ sqlite_sequence (printed stdout_error line w) = sqlite_sequence w
  /\ chain_prompt (printed stdout_error line w) = chain_prompt w
  /\ invocations (printed stdout_error line w) = invocations w
  /\ stdout w `prefix_of` stdout (printed stdout_error line w).
Proof.
  unfold printed. destruct (stdout_error w line); simpl; split_and!; try reflexivity.
  now apply prefix_app_r.
Qed.

Lemma body_effect_chain (p : str) (w : World) :
  chain_prompt (effect p w) = chain_prompt w /\ invocations (effect p w) = invocations w.
Proof.
  unfold body_effect.
  destruct (os_path_exists p); simpl; [|split; apply printed_fields].
  destruct (fails p w); [split; apply printed_fields|].
  destruct (PyPDFLoader_load p); [|now split].
  destruct (_ =? _)%nat; now split.
Qed.

Lemma body_effect_stdout_prefix (p : str) (w : World) :
  stdout w `prefix_of` stdout (effect p w).
Proof.
  unfold body_effect.
  destruct (os_path_exists p); simpl; [|apply printed_fields].
  destruct (fails p w); [apply printed_fields|].
  destruct (PyPDFLoader_load p); [|reflexivity].
  destruct (_ =? _)%nat; reflexivity.
Qed.

(** A turn leaves the table as it is, or appends the row of a file that
    exists and was extracted, whose title was not there, and whose lookup
    and insertion the database accepted. *)
Lemma body_effect_documents (p : str) (w : World) :
  (documents (effect p w) = documents w
   /\ sqlite_sequence (effect p w) = sqlite_sequence w)
  \/ exists docs,
       os_path_exists p = true /\ PyPDFLoader_load p = Ok docs
       /\ (basename p ∉ titles w)
       /\ sqlite_error w (SELECT_COUNT (basename p)) = None
       /\ sqlite_error w (inserted p docs) = None
       /\ raises p w = None
       /\ effect p w
          = set_documents (documents w ++ [new_row unicode_lower p docs w]) (next_rowid w) w.
Proof.
  unfold body_effect, body_raise, try_raises.
  destruct (os_path_exists p) eqn:Hex; simpl; [|left; split; apply printed_fields].
  destruct (PyPDFLoader_load p) as [docs|e] eqn:Hld; [|left; split; apply printed_fields].
  destruct (sqlite_error w (SELECT_COUNT (basename p))) as [e|] eqn:Hsel;
    [left; split; apply printed_fields|].
  destruct (count_title (basename p) w =? 0)%nat eqn:Hn; [|now left].
  destruct (sqlite_error w (inserted p docs)) as [e|] eqn:Hins;
    [left; split; apply printed_fields|].
  right. exists docs. apply count_title_zero in Hn. now split_and!.
Qed.

Lemma body_effect_insert (p : str) (docs : list Document) (w : World) :
  os_path_exists p = true -> PyPDFLoader_load p = Ok docs -> basename p ∉ titles w ->
  sqlite_error w (SELECT_COUNT (basename p)) = None ->
  sqlite_error w (inserted p docs) = None ->
  effect p w
  = set_documents (documents w ++ [new_row unicode_lower p docs w]) (next_rowid w) w
  /\ raises p w = None.
Proof.
  intros Hex Hld Hnew Hsel Hins. apply count_title_zero in Hnew.
  unfold body_effect, body_raise, try_raises. rewrite Hex, Hld, Hsel, Hnew, Hins.
  now split.
Qed.

Lemma body_effect_refused (p : str) (docs : list Document) (e : Exception) (w : World) :
  os_path_exists p = true -> PyPDFLoader_load p = Ok docs -> basename p ∉ titles w ->
  sqlite_error w (SELECT_COUNT (basename p)) = None ->
  sqlite_error w (inserted p docs) = Some e ->
  effect p w = printed stdout_error (error_line p e) w
  /\ raises p w = stdout_error w (error_line p e).
Proof.
  intros Hex Hld Hnew Hsel Hins. apply count_title_zero in Hnew.
  unfold body_effect, body_raise, try_raises. rewrite Hex, Hld, Hsel, Hnew, Hins.
  now split.
Qed.

Lemma body_effect_silent (p : str) (docs : list Document) (w : World) :
  os_path_exists p = true -> PyPDFLoader_load p = Ok docs -> basename p ∈ titles w ->
  sqlite_error w (SELECT_COUNT (basename p)) = None ->
  effect p w = w /\ raises p w = None.
Proof.
  intros Hex Hld Hin Hsel.
  unfold body_effect, body_raise, try_raises. rewrite Hex, Hld, Hsel. simpl.
  destruct (_ =? _)%nat eqn:Hn; [|now split].
  apply count_title_zero in Hn. contradiction.
Qed.

Lemma body_effect_skip (p : str) (w : World) :
  basename p ∈ titles w ->
  documents (effect p w) = documents w /\ sqlite_sequence (effect p w) = sqlite_sequence w.
Proof.
  intros Hin.
  destruct (body_effect_documents p w) as [Hsame | (docs & _ & _ & Hnew & _)];
    [exact Hsame | contradiction].
Qed.

Lemma body_effect_prefix (p : str) (w : World) :
  documents w `prefix_of` documents (effect p w).
Proof.
  destruct (body_effect_documents p w)
    as [[-> _] | (docs & _ & _ & _ & _ & _ & _ & ->)].
  - reflexivity.
  - now apply prefix_app_r.
Qed.

Lemma body_effect_NoDup (p : str) (w : World) :
  NoDup (titles w) -> NoDup (titles (effect p w)).
Proof.
  intros Hnd. unfold titles in *.
  destruct (body_effect_documents p w)
    as [[-> _] | (docs & _ & _ & Hnew & _ & _ & _ & ->)]; [exact Hnd|].
  simpl. rewrite titles_snoc. apply NoDup_app. split_and!.
  - exact Hnd.
  - intros t Ht Hsingle. apply list_elem_of_singleton in Hsingle. simpl in Hsingle.
    subst t. contradiction.
  - apply NoDup_singleton.
Qed.

Lemma body_effect_stored (p : str) (w : World) :
  can_read p -> db_accepts_title sqlite_error (basename p) ->
  basename p ∈ titles (effect p w) /\ raises p w = None.
Proof.
  intros [Hex [docs Hld]] Hdb.
  destruct (decide (basename p ∈ titles w)) as [Hin | Hout].
  - destruct (body_effect_silent p docs w Hex Hld Hin (proj1 (Hdb w [] []))) as [-> Hr].
    now split.
  - destruct (body_effect_insert p docs w Hex Hld Hout (proj1 (Hdb w [] []))
                (proj2 (Hdb w _ _))) as [-> Hr].
    split; [|exact Hr]. unfold titles. simpl. rewrite titles_snoc.
    apply elem_of_app. right. left.
Qed.

Lemma body_raise_accepted (p : str) (w : World) :
  stdout_accepts_all stdout_error -> raises p w = None.
Proof.
  intros Hout. unfold body_raise. destruct (negb (os_path_exists p)); [apply Hout|].
  destruct (fails p w); [apply Hout | reflexivity].
Qed.

Lemma body_effect_stdout (p : str) (w : World) :
  stdout_accepts_all stdout_error -> db_accepts_all sqlite_error ->
  stdout (effect p w) = stdout w ++ report os_path_exists PyPDFLoader_load p.
Proof.
  intros Hout Hdb. unfold body_effect, try_raises, report, printed.
  destruct (os_path_exists p); simpl; [|now rewrite Hout].
  destruct (PyPDFLoader_load p) as [docs|e]; [|now rewrite Hout].
  rewrite !Hdb. destruct (_ =? _)%nat; simpl; now rewrite app_nil_r.
Qed.

(** The loop, turn after turn, up to the first that raises. *)

Lemma run_preserves (P : World -> Prop) (paths : list str) (w : World) :
  (forall p w', P w' -> P (effect p w')) -> P w -> P (run paths w).
Proof.
  intros Hstep. revert w; induction paths as [|p paths IH]; intros w Hw; simpl; [exact Hw|].
  destruct (raises p w); [now apply Hstep|]. apply IH. now apply Hstep.
Qed.

Lemma run_chain (paths : list str) (w : World) :
  chain_prompt (run paths w) = chain_prompt w /\ invocations (run paths w) = invocations w.
Proof.
  apply (run_preserves
           (fun w' => chain_prompt w' = chain_prompt w /\ invocations w' = invocations w));
    [|now split].
  intros p w' [Hc Hi]. destruct (body_effect_chain p w') as [-> ->]. now split.
Qed.

Lemma run_prefix (paths : list str) (w : World) :
  documents w `prefix_of` documents (run paths w).
Proof.
  apply (run_preserves (fun w' => documents w `prefix_of` documents w')); [|reflexivity].
  intros p w' Hpre. etransitivity; [exact Hpre | apply body_effect_prefix].
Qed.

Lemma run_stdout_prefix (paths : list str) (w : World) :
  stdout w `prefix_of` stdout (run paths w).
Proof.
  apply (run_preserves (fun w' => stdout w `prefix_of` stdout w')); [|reflexivity].
  intros p w' Hpre. etransitivity; [exact Hpre | apply body_effect_stdout_prefix].
Qed.

Lemma run_NoDup (paths : list str) (w : World) :
  NoDup (titles w) -> NoDup (titles (run paths w)).
Proof.
  intros Hnd. apply (run_preserves (fun w' => NoDup (titles w'))); [|exact Hnd].
  intros p w'. apply body_effect_NoDup.
Qed.

Lemma run_skip (paths : list str) (w : World) :
  (forall p, p ∈ paths -> can_read p -> basename p ∈ titles w) ->
  documents (run paths w) = documents w
  /\ sqlite_sequence (run paths w) = sqlite_sequence w.
Proof.
  revert w; induction paths as [|p paths IH]; intros w Hall; simpl; [now split|].
  assert (Hp : documents (effect p w) = documents w
               /\ sqlite_sequence (effect p w) = sqlite_sequence w).
  { destruct (body_effect_documents p w) as [Hsame | (docs & Hex & Hld & Hnew & _)];
      [exact Hsame|].
    exfalso. apply Hnew. apply Hall; [left | split; [exact Hex | now exists docs]]. }
  destruct Hp as [Hd Hs]. destruct (raises p w); [now split|].
  destruct (IH (effect p w)) as [Hd' Hs'].
  - intros q Hq Hread. unfold titles. rewrite Hd. apply Hall; [now right | exact Hread].
  - now rewrite Hd', Hs', Hd, Hs.
Qed.

(** A title in the store after the loop was there before or is the base
    name of a path that exists and was extracted. *)
Lemma run_titles_readable (paths : list str) (t : str) (w : World) :
  t ∈ titles (run paths w) ->
  t ∈ titles w \/ exists q, q ∈ paths /\ can_read q /\ basename q = t.
Proof.
  revert w; induction paths as [|p paths IH]; intros w Hin; simpl in *; [now left|].
  assert (Hturn : forall t', t' ∈ titles (effect p w) ->
                    t' ∈ titles w \/ (can_read p /\ basename p = t')).
  { intros t' Ht'. unfold titles in Ht'.
    destruct (body_effect_documents p w)
      as [[Hsame _] | (docs & Hex & Hld & _ & _ & _ & _ & Hnew)].
    - rewrite Hsame in Ht'. now left.
    - rewrite Hnew in Ht'. simpl in Ht'. rewrite titles_snoc in Ht'.
      apply elem_of_app in Ht' as [Ht' | Ht']; [now left|].
      apply list_elem_of_singleton in Ht'. right.
      split; [split; [exact Hex | now exists docs] | now symmetry]. }
  assert (Hp : forall t', t' ∈ titles (effect p w) ->
                 t' ∈ titles w \/ exists q, q ∈ p :: paths /\ can_read q /\ basename q = t').
  { intros t' Ht'. destruct (Hturn t' Ht') as [H | [Hread Hbase]]; [now left|].
    right. exists p. split_and!; [left | exact Hread | exact Hbase]. }
  destruct (raises p w); [now apply Hp|].
  apply IH in Hin as [Hin | (q & Hq & Hread & Hbase)]; [now apply Hp|].
  right. exists q. split_and!; [now right | exact Hread | exact Hbase].
Qed.

(** With a stdout that takes every line no turn raises, and the loop runs
    over all the paths. *)

Lemma run_raises_accepted (paths : list str) (w : World) :
  stdout_accepts_all stdout_error -> run_raises paths w = None.
Proof.
  intros Hout. revert w; induction paths as [|p paths IH]; intros w; simpl; [reflexivity|].
  now rewrite body_raise_accepted.
Qed.

Lemma run_cons_accepted (p : str) (paths : list str) (w : World) :
  stdout_accepts_all stdout_error -> run (p :: paths) w = run paths (effect p w).
Proof. intros Hout. simpl. now rewrite body_raise_accepted. Qed.

Lemma run_app (a b : list str) (w : World) :
  stdout_accepts_all stdout_error -> run (a ++ b) w = run b (run a w).
Proof.
  intros Hout. revert w; induction a as [|p a IH]; intros w; [reflexivity|].
  rewrite <- app_comm_cons, !run_cons_accepted by exact Hout. apply IH.
Qed.

Lemma run_stored (paths : list str) (p : str) (w : World) :
  stdout_accepts_all stdout_error ->
  p ∈ paths -> can_read p -> db_accepts_title sqlite_error (basename p) ->
  basename p ∈ titles (run paths w).
Proof.
  intros Hout Hin Hread Hdb. revert w; induction paths as [|p' paths IH]; intros w.
  - inversion Hin.
  - rewrite run_cons_accepted by exact Hout.
    apply elem_of_cons in Hin as [<- | Hin]; [|now apply IH].
    eapply prefix_titles; [apply run_prefix|]. now apply body_effect_stored.
Qed.

Lemma run_first_stored (a b : list str) (p : str) (docs : list Document) (w : World) :
  stdout_accepts_all stdout_error ->
  os_path_exists p = true -> PyPDFLoader_load p = Ok docs ->
  db_accepts_title sqlite_error (basename p) ->
  basename p ∉ titles w ->
  (forall q, q ∈ a -> basename q <> basename p) ->
  new_row unicode_lower p docs (run a w) ∈ documents (run (a ++ p :: b) w).
Proof.
  intros Hout Hex Hld Hdb Hnew Hfirst. rewrite run_app, run_cons_accepted by exact Hout.
  assert (Hfresh : basename p ∉ titles (run a w)).
  { intros Hin. apply run_titles_readable in Hin as [Hin | (q & Hq & _ & Hbase)].
    - contradiction.
    - now apply (Hfirst q). }
  destruct (body_effect_insert p docs (run a w) Hex Hld Hfresh
              (proj1 (Hdb _ [] [])) (proj2 (Hdb _ _ _))) as [Heff _].
  destruct (run_prefix b (effect p (run a w))) as [k ->].
  rewrite Heff. simpl. apply elem_of_app. left. apply elem_of_app. right. left.
Qed.

Lemma run_stdout (paths : list str) (w : World) :
  stdout_accepts_all stdout_error -> db_accepts_all sqlite_error ->
  stdout (run paths w)
  = stdout w ++ concat (map (report os_path_exists PyPDFLoader_load) paths).
Proof.
  intros Hout Hdb. revert w; induction paths as [|p paths IH]; intros w.
  - simpl. now rewrite app_nil_r.
  - rewrite run_cons_accepted by exact Hout.
    rewrite IH, body_effect_stdout by assumption. simpl. now rewrite <- app_assoc.
Qed.

(** Paths that all exist and are extracted, with distinct new base names
    the database accepts: every turn inserts, none prints, none raises. *)
Lemma run_all_new (paths : list str) (w : World) :
  (forall p, p ∈ paths -> can_read p) ->
  (forall p, p ∈ paths -> db_accepts_title sqlite_error (basename p)) ->
  NoDup (map basename paths) ->
  (forall p, p ∈ paths -> basename p ∉ titles w) ->
  run_raises paths w = None
  /\ stdout (run paths w) = stdout w
  /\ exists rows,
       documents (run paths w) = documents w ++ rows
       /\ map title rows = map basename paths
       /\ map type rows
          = map (fun p => detect_type_from_filename unicode_lower (basename p)) paths
       /\ map content rows
          = map (fun p => match PyPDFLoader_load p with
                          | Ok docs => join [10] (map page_content docs)
                          | Raise _ => []
                          end) paths.
Proof.
  revert w; induction paths as [|p paths IH]; intros w Hread Hdb Hnd Hnew; simpl.
  - split_and!; try reflexivity. exists []. now rewrite app_nil_r.
  - simpl in Hnd. apply NoDup_cons in Hnd as [Hp Hnd].
    destruct (Hread p ltac:(left)) as [Hex [docs Hld]].
    destruct (body_effect_insert p docs w Hex Hld (Hnew p ltac:(left))
                (proj1 (Hdb p ltac:(left) w [] [])) (proj2 (Hdb p ltac:(left) w _ _)))
      as [Heff Hr].
    rewrite Hr.
    destruct (IH (effect p w)) as (Hraise & Hout & rows & Hdocs & Ht & Hty & Hc).
    + intros q Hq. apply Hread. now right.
    + intros q Hq. apply Hdb. now right.
    + exact Hnd.
    + intros q Hq. rewrite Heff. unfold titles. simpl. rewrite titles_snoc.
      intros Hin. apply elem_of_app in Hin as [Hin | Hin].
      * now apply (Hnew q ltac:(right; exact Hq)).
      * apply list_elem_of_singleton in Hin. simpl in Hin. apply Hp. rewrite <- Hin.
        apply list_elem_of_In, in_map. now apply list_elem_of_In.
    + split_and!.
      * exact Hraise.
      * rewrite Hout, Heff. reflexivity.
      * exists (new_row unicode_lower p docs w :: rows). split_and!.
        -- rewrite Hdocs, Heff. simpl. now rewrite <- app_assoc.
        -- simpl. now rewrite Ht.
        -- simpl. now rewrite Hty.
        -- simpl. now rewrite Hc, Hld.
Qed.

(** The whole of [insert_pdfs] when nothing it prints is refused and the
    commit is accepted. *)
Lemma insert_pdfs_from_run (paths : list str) (w : World) :
  stdout_accepts_all stdout_error -> db_commits sqlite_error ->
  ingest paths w
  = (Ok tt,
     match missing paths with
     | [] => run paths w
     | _ :: _ => set_stdout (stdout (run paths w) ++ summary (missing paths)) (run paths w)
     end).
Proof.
  intros Hout Hcommit.
  unfold insert_pdfs_from, mbind, M_bind. rewrite insert_pdfs_loop_run.
  rewrite run_raises_accepted by exact Hout.
  unfold conn_commit. rewrite Hcommit. unfold mret, M_ret.
  destruct (missing paths) as [|m ms]; [reflexivity|].
  unfold print_line. rewrite !Hout. unfold set_stdout, summary; simpl.
  now rewrite <- app_assoc.
Qed.

End IngestionFacts.

(** ** Answering *)

Lemma lstrip_nil (s : str) : lstrip s = [] <-> blank s = true.
Proof.
  unfold blank. induction s as [|c s IH]; simpl; [easy|].
  destruct (isspace c); simpl; [exact IH | easy].
Qed.

Lemma lstrip_head (s : str) (c : N) (s' : str) : lstrip s = c :: s' -> isspace c = false.
Proof.
  induction s as [|d s IH]; simpl; [discriminate|].
  destruct (isspace d) eqn:E; [exact IH | congruence].
Qed.

Lemma blank_rev (s : str) : blank (rev s) = blank s.
Proof.
  unfold blank. apply eq_true_iff_eq. rewrite !forallb_forall.
  split; intros H x Hx; apply H; [now apply in_rev in Hx | now apply in_rev].
Qed.

(** [not question.strip()] holds exactly for the blank questions. *)
Lemma strip_blank (s : str) : truthy (strip s) = negb (blank s).
Proof.
  unfold strip, rstrip.
  destruct (blank s) eqn:Hb; simpl.
  - apply lstrip_nil in Hb. now rewrite Hb.
  - destruct (lstrip s) as [|c s'] eqn:Hl.
    + apply lstrip_nil in Hl. congruence.
    + destruct (lstrip (rev (c :: s'))) as [|d t] eqn:Hr.
      * apply lstrip_nil in Hr. rewrite blank_rev in Hr.
        apply lstrip_head in Hl. unfold blank in Hr. simpl in Hr.
        rewrite Hl in Hr. discriminate.
      * destruct (rev (d :: t)) eqn:Hrev; [|reflexivity].
        apply (f_equal (@length N)) in Hrev. rewrite length_rev in Hrev. discriminate.
Qed.

Section ChatFacts.

Variable unicode_lower : UnicodeLower.
Variable RetrievalQA : nat -> PromptTemplate -> Dict -> Result Dict.

Local Abbreviation ask := (ask_question unicode_lower RetrievalQA).
Local Abbreviation bound := (bound_prompt unicode_lower).

Lemma ask_question_blank_run (q : str) (hist : list Dict) (w : World) :
  blank q = true -> ask q hist w = (Ok (hist, py "❗ Entrez une question."), w).
Proof. intros Hb. unfold ask_question. now rewrite strip_blank, Hb. Qed.

Lemma ask_question_generate_run (q : str) (hist : list Dict) (w : World) :
  ask_question_generate RetrievalQA q hist w
  = match RetrievalQA (length (invocations w)) (chain_prompt w) (query_inputs q) with
    | Ok result =>
      (Ok ((hist ++ [user_turn q])
             ++ [assistant_turn (dict_get result (py "result") (py "Je n'ai pas de réponse."))],
           py ""),
       set_invocations (invocations w ++ [(chain_prompt w, query_inputs q)]) w)
    | Raise e =>
      (Ok ((hist ++ [user_turn q]) ++ [assistant_turn (py "Erreur lors de la génération.")],
           py ""),
       set_stdout (stdout w ++ [py "Erreur : " ++ exc_str e])
                  (set_invocations (invocations w ++ [(chain_prompt w, query_inputs q)]) w))
    end.
Proof.
  unfold ask_question_generate, mbind, M_bind, try_except, qa_chain_invoke, mret, M_ret.
  fold (query_inputs q).
  destruct (RetrievalQA _ _ _) as [result|e]; reflexivity.
Qed.

Lemma ask_question_nonblank_run (q : str) (hist : list Dict) (w : World) :
  blank q = false ->
  ask q hist w
  = match RetrievalQA (length (invocations w)) (bound q) (query_inputs q) with
    | Ok result =>
      (Ok ((hist ++ [user_turn q])
             ++ [assistant_turn (dict_get result (py "result") (py "Je n'ai pas de réponse."))],
           py ""),
       after_call unicode_lower q w)
    | Raise e =>
      (Ok ((hist ++ [user_turn q]) ++ [assistant_turn (py "Erreur lors de la génération.")],
           py ""),
       set_stdout (stdout w ++ [py "Erreur : " ++ exc_str e]) (after_call unicode_lower q w))
    end.
Proof.
  intros Hb. unfold ask_question. rewrite strip_blank, Hb. simpl.
  unfold mbind at 1. unfold M_bind, ask_question_select, assign_chain_prompt.
  rewrite ask_question_generate_run. reflexivity.
Qed.

Lemma ask_question_documents (q : str) (hist : list Dict) (w : World) :
  documents (exec (ask q hist) w) = documents w.
Proof.
  unfold exec. destruct (blank q) eqn:Hb.
  - now rewrite ask_question_blank_run.
  - rewrite ask_question_nonblank_run by exact Hb.
    destruct (RetrievalQA _ _ _); reflexivity.
Qed.

Lemma ask_question_invocations (q : str) (hist : list Dict) (w : World) :
  invocations (exec (ask q hist) w)
  = invocations w ++ (if blank q then [] else [(bound q, query_inputs q)]).
Proof.
  unfold exec. destruct (blank q) eqn:Hb.
  - rewrite ask_question_blank_run by exact Hb. simpl. now rewrite app_nil_r.
  - rewrite ask_question_nonblank_run by exact Hb.
    destruct (RetrievalQA _ _ _); reflexivity.
Qed.

Lemma ask_question_chain_prompt (q : str) (hist : list Dict) (w : World) :
  chain_prompt (exec (ask q hist) w) = if blank q then chain_prompt w else bound q.
Proof.
  unfold exec. destruct (blank q) eqn:Hb.
  - now rewrite ask_question_blank_run.
  - rewrite ask_question_nonblank_run by exact Hb.
    destruct (RetrievalQA _ _ _); reflexivity.
Qed.

Lemma ask_question_total (q : str) (hist : list Dict) (w : World) :
  exists r, outcome (ask q hist) w = Ok r.
Proof.
  unfold outcome. destruct (blank q) eqn:Hb.
  - rewrite ask_question_blank_run by exact Hb. eauto.
  - rewrite ask_question_nonblank_run by exact Hb.
    destruct (RetrievalQA _ _ _); eauto.
Qed.

End ChatFacts.

(** Every label the classifiers can return is a key of the prompt map. *)
Lemma label_in_prompt_map (c : Category) : is_Some (prompt_map !! label c).
Proof. destruct c; vm_compute; eauto. Qed.

Lemma default_prompt_lookup : prompt_map !! py "SEMINAIRE" = Some default_prompt.
Proof. vm_compute. reflexivity. Qed.

Lemma bound_prompt_lookup (tbl : UnicodeLower) (q : str) :
  prompt_map !! detect_event_type tbl q = Some (bound_prompt tbl q).
Proof.
  unfold bound_prompt, dict_get. rewrite detect_event_type_table.
  destruct (label_in_prompt_map (classify_by_question tbl q)) as [p ->]. reflexivity.
Qed.

(** ** The retriever *)

Lemma create_retriever_run (VS R : Type) (sp : N -> N -> list Document -> list Document)
      (fa : list Document -> VS) (ar : VS -> N -> R) (w : World) :
  create_retriever VS R sp fa ar w
  = (Ok (ar (fa (sp 800 150
                    match documents w with
                    | [] => [dummy_doc]
                    | _ :: _ =>
                      map (fun row =>
                             {| page_content := content row;
                                metadata := dict_of [(py "title", title row);
                                                     (py "type", type row)] |})
                          (documents w)
                    end)) 3), w).
Proof.
  unfold create_retriever, mbind, M_bind, load_documents_from_db, mret, M_ret.
  destruct (documents w); reflexivity.
Qed.

(** ** The store never holds a title twice *)

Lemma insert_pdfs_from_NoDup tbl ex ld out db (paths : list str) (w : World) :
  NoDup (titles w) -> NoDup (titles (exec (insert_pdfs_from tbl ex ld out db paths) w)).
Proof.
  intros Hnd. unfold titles.
  destruct (insert_pdfs_from_fields tbl ex ld out db paths w) as [-> _].
  now apply run_NoDup.
Qed.

Lemma reachable_NoDup (w : World) : reachable w -> NoDup (titles w).
Proof.
  induction 1 as [w H | tbl ex ld out db paths w _ IH | VS R sp fa ar w _ IH
                  | tbl qa q hist w _ IH].
  - unfold titles. rewrite H. apply NoDup_nil_2.
  - now apply insert_pdfs_from_NoDup.
  - unfold exec. now rewrite create_retriever_run.
  - unfold titles. now rewrite ask_question_documents.
Qed.

Lemma insert_pdfs_from_prefix tbl ex ld out db (paths : list str) (w : World) :
  documents w `prefix_of` documents (exec (insert_pdfs_from tbl ex ld out db paths) w).
Proof.
  destruct (insert_pdfs_from_fields tbl ex ld out db paths w) as [-> _]. apply run_prefix.
Qed.

Lemma insert_pdfs_from_stored tbl ex ld out db (paths : list str) (p : str) (w : World) :
  stdout_accepts_all out ->
  p ∈ paths -> readable ex ld p -> db_accepts_title db (basename p) ->
  basename p ∈ titles (exec (insert_pdfs_from tbl ex ld out db paths) w).
Proof.
  intros Hout Hin Hread Hdb. unfold titles.
  destruct (insert_pdfs_from_fields tbl ex ld out db paths w) as [-> _].
  now apply run_stored.
Qed.

Lemma insert_pdfs_from_skip tbl ex ld out db (paths : list str) (w : World) :
  (forall p, p ∈ paths -> readable ex ld p -> basename p ∈ titles w) ->
  documents (exec (insert_pdfs_from tbl ex ld out db paths) w) = documents w
  /\ sqlite_sequence (exec (insert_pdfs_from tbl ex ld out db paths) w) = sqlite_sequence w.
Proof.
  intros Hall.
  destruct (insert_pdfs_from_fields tbl ex ld out db paths w) as (-> & -> & _).
  now apply run_skip.
Qed.

Lemma body_effect_reports tbl ex ld out db (p : str) (w : World) (line : str) :
  stdout_accepts_all out ->
  (ex p = false /\ line = missing_line p)
  \/ (exists e, ex p = true /\ ld p = Raise e /\ line = error_line p e) ->
  line ∈ stdout (body_effect tbl ex ld out db p w).
Proof.
  intros Hout [[Hex ->] | (e & Hex & Hld & ->)];
    unfold body_effect, try_raises, printed; rewrite Hex; simpl.
  - rewrite Hout. simpl. apply elem_of_app. right. left.
  - rewrite Hld, Hout. simpl. apply elem_of_app. right. left.
Qed.

Lemma insert_pdfs_from_reports tbl ex ld out db (paths : list str) (p : str) (w : World)
      (line : str) :
  stdout_accepts_all out -> p ∈ paths ->
  (ex p = false /\ line = missing_line p)
  \/ (exists e, ex p = true /\ ld p = Raise e /\ line = error_line p e) ->
  line ∈ stdout (exec (insert_pdfs_from tbl ex ld out db paths) w).
Proof.
  intros Hout Hin Hline.
  destruct (insert_pdfs_from_fields tbl ex ld out db paths w) as (_ & _ & _ & _ & [k ->]).
  apply elem_of_app. left.
  revert w; induction paths as [|q paths IH]; intros w; [inversion Hin|].
  rewrite run_cons_accepted by exact Hout.
  apply elem_of_cons in Hin as [<- | Hin]; [|now apply IH].
  destruct (run_stdout_prefix tbl ex ld out db paths (body_effect tbl ex ld out db p w))
    as [k' ->].
  apply elem_of_app. left. now apply body_effect_reports.
Qed.







(** ** The answer handler *)

Lemma turn_fields (role_name text : str) :
  dict_of [(py "role", role_name); (py "content", text)] !! py "role" = Some role_name
  /\ dict_of [(py "role", role_name); (py "content", text)] !! py "content" = Some text.
Proof.
  unfold dict_of. simpl. split.
  - rewrite lookup_insert_ne by (vm_compute; discriminate). apply lookup_insert_eq.
  - apply lookup_insert_eq.
Qed.

Lemma query_inputs_question (q : str) : query_inputs q !! py "question" = Some q.
Proof. unfold query_inputs, dict_of. simpl. apply lookup_insert_eq. Qed.

Lemma query_inputs_inj (q q' : str) : query_inputs q = query_inputs q' -> q = q'.
Proof.
  intros H. apply (f_equal (fun d => d !! py "question")) in H.
  rewrite !query_inputs_question in H. congruence.
Qed.

(** C5: for a blank question (empty or white space only) and any history,
    [ask_question] returns the history as it was together with the
    non-empty message asking for a question, and nothing else happens: the
    chain is not called and the state is left as it was. *)
Theorem ask_question_rejects_blank (tbl : UnicodeLower) (qa : Chain) (question : str) (chat_display : list Dict)
        (w : World) :
  blank question = true ->
  ask_question tbl qa question chat_display w
  = (Ok (chat_display, py "❗ Entrez une question."), w)
  /\ py "❗ Entrez une question." <> []
  /\ invocations (exec (ask_question tbl qa question chat_display) w) = invocations w.
Proof.
  intros Hb. rewrite ask_question_invocations, Hb, app_nil_r.
  split_and!; [now apply ask_question_blank_run | discriminate | reflexivity].
Qed.

Lemma ask_question_rejects_blank_witness :
  blank [32; 9; 10; 160] = true
  /\ ask_question latin1_lower echo_chain [32; 9; 10; 160] [user_turn (py "Bonjour")]
                  initial_world
     = (Ok ([user_turn (py "Bonjour")], py "❗ Entrez une question."), initial_world).
Proof.
  split; [reflexivity|].
  exact (proj1 (ask_question_rejects_blank latin1_lower echo_chain [32; 9; 10; 160]
                  [user_turn (py "Bonjour")] initial_world eq_refl)).
Defined.



(** C7: for a non-blank question the chain is called under the template
    the fixed map holds for the category of the question.  The lookup falls
    back on the SEMINAIRE template for a key that is not in the map, and
    that fallback is never taken: the classifier returns one of six labels
    and these are the keys of the map.  For "Quel budget pour un mariage?"
    the template is the one of MARIAGE, not the one of BUDGET. *)
Theorem ask_question_binds_category_prompt (tbl : UnicodeLower) :
  (forall (qa : Chain) question chat_display w,
      blank question = false ->
      exists p,
        prompt_map !! detect_event_type tbl question = Some p
        /\ chain_prompt (exec (ask_question_select tbl question) w) = p
        /\ invocations (exec (ask_question tbl qa question chat_display) w)
           = invocations w ++ [(p, query_inputs question)])
  /\ (forall key, prompt_map !! key = None -> dict_get prompt_map key default_prompt
                                             = default_prompt)
  /\ prompt_map !! py "SEMINAIRE" = Some default_prompt
  /\ (forall question, exists c, detect_event_type tbl question = label c)
  /\ (forall question, is_Some (prompt_map !! detect_event_type tbl question))
  /\ dom prompt_map
     = list_to_set (map label [BUDGET; PLANNING; SEMINAR; WEDDING; EXPO; CREATIVITY])
  /\ prompt_map !! py "MARIAGE" = Some (bound_prompt tbl (py "Quel budget pour un mariage?"))
  /\ prompt_map !! py "BUDGET" <> Some (bound_prompt tbl (py "Quel budget pour un mariage?")).
Proof.
  split_and!.
  - intros qa q hist w Hb. exists (bound_prompt tbl q). split_and!.
    + apply bound_prompt_lookup.
    + reflexivity.
    + now rewrite ask_question_invocations, Hb.
  - intros key Hnone. unfold dict_get. now rewrite Hnone.
  - exact default_prompt_lookup.
  - intros q. eexists. apply detect_event_type_table.
  - intros q. rewrite bound_prompt_lookup. eauto.
  - vm_compute. reflexivity.
  - vm_compute. reflexivity.
  - vm_compute. discriminate.
Qed.

Lemma ask_question_binds_category_prompt_witness :
  blank (py "Quel budget pour un mariage?") = false
  /\ exists p,
       prompt_map !! py "MARIAGE" = Some p
       /\ invocations (exec (ask_question latin1_lower echo_chain
                               (py "Quel budget pour un mariage?") []) initial_world)
          = [(p, query_inputs (py "Quel budget pour un mariage?"))].
Proof.
  split; [reflexivity|].
  destruct (proj1 (ask_question_binds_category_prompt latin1_lower) echo_chain
              (py "Quel budget pour un mariage?") [] initial_world eq_refl)
    as (p & Hp & _ & Hinv).
  exists p. split; [exact Hp | exact Hinv].
Defined.

(** C9: on an empty store the index is built over exactly one document,
    the placeholder with the welcome text and type SEMINAIRE; on a store
    with rows it is built over the documents loaded from all the rows; the
    list handed to the splitter is never empty. *)
Theorem create_retriever_never_empty (VS R : Type)
        (sp : N -> N -> list Document -> list Document)
        (fa : list Document -> VS) (ar : VS -> N -> R) (w : World) :
  exists docs,
    create_retriever VS R sp fa ar w = (Ok (ar (fa (sp 800 150 docs)) 3), w)
    /\ docs <> []
    /\ (documents w = [] -> docs = [dummy_doc])
    /\ (documents w <> [] ->
        outcome load_documents_from_db w = Ok docs
        /\ map page_content docs = map content (documents w)
        /\ length docs = length (documents w))
    /\ page_content dummy_doc
       = py "Bienvenue sur EventBot Pro. Aucun document n'est encore disponible."
    /\ metadata dummy_doc !! py "type" = Some (label SEMINAR).
Proof.
  rewrite create_retriever_run. destruct (documents w) as [|row rows] eqn:Hrows.
  - exists [dummy_doc]. split_and!; try reflexivity; try discriminate.
    intros H. now contradiction H.
  - eexists. split_and!; try reflexivity; try discriminate.
    intros _. unfold outcome, load_documents_from_db. simpl. rewrite Hrows.
    split_and!; try reflexivity.
    + simpl. f_equal. rewrite map_map. reflexivity.
    + simpl. now rewrite length_map.
Qed.

Lemma create_retriever_never_empty_witness :
  documents initial_world = []
  /\ outcome (create_retriever (list Document) (list Document)
                (fun _ _ docs => docs) (fun chunks => chunks) (fun vs _ => vs))
             initial_world
     = Ok [dummy_doc].
Proof.
  split; [reflexivity|].
  destruct (create_retriever_never_empty (list Document) (list Document)
              (fun _ _ docs => docs) (fun chunks => chunks) (fun vs _ => vs) initial_world)
    as (docs & Hrun & _ & Hempty & _).
  unfold outcome. rewrite Hrun. simpl. now rewrite (Hempty eq_refl).
Defined.

(** ** The prompt field of the shared chain *)

Lemma serve_cons (tbl : UnicodeLower) (qa : Chain) (c : list N * list Dict)
      (calls : list (list N * list Dict)) (w : World) :
  exec (serve tbl qa (c :: calls)) w
  = exec (serve tbl qa calls) (exec (ask_question tbl qa (fst c) (snd c)) w).
Proof.
  unfold serve, exec. simpl. unfold mbind, M_bind.
  destruct (ask_question_total tbl qa (fst c) (snd c) w) as [r Hr].
  unfold outcome in Hr.
  destruct (ask_question tbl qa (fst c) (snd c) w) as [res w'].
  simpl in Hr. subst res. reflexivity.
Qed.

Lemma serve_invocations (tbl : UnicodeLower) (qa : Chain)
      (calls : list (list N * list Dict)) (w : World) :
  invocations (exec (serve tbl qa calls) w)
  = invocations w
    ++ map (fun c => (bound_prompt tbl (fst c), query_inputs (fst c)))
           (List.filter (fun c => negb (blank (fst c))) calls).
Proof.
  revert w; induction calls as [|c calls IH]; intros w.
  - unfold serve, exec. simpl. now rewrite app_nil_r.
  - rewrite serve_cons, IH, ask_question_invocations. simpl.
    destruct (blank (fst c)); simpl; [now rewrite app_nil_r | now rewrite <- app_assoc].
Qed.

Lemma request_in_turn (tbl : UnicodeLower) (qa : Chain) (q : str) (hist : list Dict)
      (w : World) :
  exec (run_schedule [0; 0]%nat [request tbl qa q hist]) w
  = exec (ask_question tbl qa q hist) w.
Proof.
  unfold request, ask_question. destruct (negb (truthy (strip q))); [reflexivity|].
  unfold exec. simpl. unfold mbind, M_bind, mret, M_ret.
  destruct (ask_question_select tbl q w) as [[[]|e] w1]; [|reflexivity].
  destruct (ask_question_generate qa q hist w1) as [[r|e] w2]; reflexivity.
Qed.

(** C8, as the code has it: when requests are served one at a time, every
    generation call runs under the template selected for its own question,
    and what a call returns does not depend on the template an earlier call
    left behind.  The template is kept in the prompt field of the shared
    chain: a non-blank call leaves its own template there when it returns,
    a blank call leaves the field as it found it. *)
Theorem prompt_binding_served_in_turn (tbl : UnicodeLower) (qa : Chain) :
  (forall calls w,
      invocations (exec (serve tbl qa calls) w)
      = invocations w
        ++ map (fun c => (bound_prompt tbl (fst c), query_inputs (fst c)))
               (List.filter (fun c => negb (blank (fst c))) calls))
  /\ (forall calls w,
        Forall (own_template tbl) (new_invocations w (exec (serve tbl qa calls) w)))
  /\ (forall question chat_display w p,
        outcome (ask_question tbl qa question chat_display) (set_chain_prompt p w)
        = outcome (ask_question tbl qa question chat_display) w)
  /\ (forall question chat_display w,
        chain_prompt (exec (ask_question tbl qa question chat_display) w)
        = if blank question then chain_prompt w else bound_prompt tbl question)
  /\ (forall question chat_display w,
        exec (run_schedule [0; 0]%nat [request tbl qa question chat_display]) w
        = exec (ask_question tbl qa question chat_display) w).
Proof.
  split_and!.
  - apply serve_invocations.
  - intros calls w. unfold new_invocations. rewrite serve_invocations, drop_app_length.
    induction (List.filter _ calls) as [|c cs IH]; simpl; constructor; [|exact IH].
    now exists (fst c).
  - intros q hist w p. unfold outcome. destruct (blank q) eqn:Hb.
    + now rewrite !ask_question_blank_run.
    + rewrite !ask_question_nonblank_run by exact Hb. simpl.
      destruct (qa _ _ _); reflexivity.
  - intros q hist w. apply ask_question_chain_prompt.
  - intros q hist w. apply request_in_turn.
Qed.

(** C8, as stated, does not hold of the code.  After a call for a wedding
    question has returned, the prompt field of the shared chain holds the
    wedding template and no longer what it held before; and when a second
    request binds its prompt between the binding and the generation of a
    first one, the first generation runs under the template of the
    second. *)
Lemma prompt_binding_is_shared :
  ~ binding_is_call_local latin1_lower echo_chain
  /\ ~ no_request_sees_another latin1_lower echo_chain
  /\ new_invocations initial_world
       (exec (run_schedule [0; 1; 0; 1]%nat
                [request latin1_lower echo_chain (py "Un mariage") [];
                 request latin1_lower echo_chain (py "Quel budget ?") []])
             initial_world)
     = [(bound_prompt latin1_lower (py "Quel budget ?"), query_inputs (py "Un mariage"));
        (bound_prompt latin1_lower (py "Quel budget ?"), query_inputs (py "Quel budget ?"))].
Proof.
  assert (Hdiff : forall p,
             str_eqb (template p) (template (bound_prompt latin1_lower (py "Un mariage")))
             = false ->
             p <> bound_prompt latin1_lower (py "Un mariage")).
  { intros p Hp ->. now rewrite str_eqb_refl in Hp. }
  split_and!.
  - intros Hlocal.
    specialize (Hlocal (py "Un mariage") [] initial_world).
    rewrite ask_question_chain_prompt in Hlocal.
    change (blank (py "Un mariage")) with false in Hlocal. cbv iota in Hlocal.
    symmetry in Hlocal. revert Hlocal. apply Hdiff. vm_compute. reflexivity.
  - intros Hnone.
    specialize (Hnone [(py "Un mariage", []); (py "Quel budget ?", [])]
                      [0; 1; 0; 1]%nat initial_world).
    apply Forall_cons_1 in Hnone as [[q [Hq Hp]] _].
    simpl in Hq, Hp. apply query_inputs_inj in Hq. subst q.
    revert Hp. apply Hdiff. vm_compute. reflexivity.
  - vm_compute. reflexivity.
Qed.

(** ** Runs on concrete inputs *)

Example lower_latin1 : lower latin1_lower (py "Thème ÉTÉ.PDF") = py "thème été.pdf".
Proof. reflexivity. Qed.

Example basename_of_path :
  basename (py "pdfs/to do list mariage.pdf") = py "to do list mariage.pdf".
Proof. reflexivity. Qed.

Example strip_question : strip ([32; 9] ++ py "a b" ++ [10; 32]) = py "a b".
Proof. reflexivity. Qed.

Example types_of_PDF_PATHS :
  map (fun p => detect_type_from_filename latin1_lower (basename p)) PDF_PATHS
  = [py "CRÉATIVITÉ"; py "MARIAGE"; py "SEMINAIRE"; py "PLANIFICATION"; py "MARIAGE"].
Proof. reflexivity. Qed.

Example accented_question :
  detect_event_type latin1_lower (py "Des IDÉES de décoration ?") = py "CRÉATIVITÉ".
Proof. reflexivity. Qed.

(** Outside a handler an exception goes up to the caller. *)
Example raise_propagates (e : Exception) (w : World) :
  outcome (call (@Raise unit e);; print (py "unreachable")) w = Raise e
  /\ exec (call (@Raise unit e);; print (py "unreachable")) w = w.
Proof. split; reflexivity. Qed.

Example demo_ingestion_output :
  stdout (exec (insert_pdfs latin1_lower demo_exists demo_load no_stdout_error no_sqlite_error) initial_world)
  = [ py "⚠️ Fichier manquant: pdfs/idees_themes.pdf";
      py "⚠️ Fichier manquant: pdfs/logistique_conference.pdf";
      py "⚠️ Fichier manquant: pdfs/planning_evenement.pdf";
      py "❌ Erreur lors du traitement de pdfs/to do list mariage.pdf: EOF marker not found";
      py "⚠️ Fichiers manquants: pdfs/idees_themes.pdf, pdfs/logistique_conference.pdf, pdfs/planning_evenement.pdf";
      py "Veuillez vous assurer que tous les fichiers PDF sont présents dans le répertoire." ].
Proof. vm_compute. reflexivity. Qed.

Example demo_ingestion_rows :
  documents (exec (insert_pdfs latin1_lower demo_exists demo_load no_stdout_error no_sqlite_error) initial_world)
  = [ {| rowid := 1; title := py "budget_mariage.pdf";
         content := py "Traiteur" ++ [10] ++ py "Salle"; type := py "MARIAGE" |} ].
Proof. vm_compute. reflexivity. Qed.

(** On a stdout with the ASCII encoding the first print raises and
    nothing after it runs. *)
Example ascii_console_run :
  insert_pdfs latin1_lower demo_exists demo_load ascii_stdout no_sqlite_error initial_world
  = (Raise {| exc_str := py "'ascii' codec can't encode character" |}, initial_world).
Proof. vm_compute. reflexivity. Qed.

(** A refused insertion is reported and the loop goes on. *)
Example refused_insert_run :
  stdout (exec (insert_pdfs_from latin1_lower (fun _ => true) surrogate_load no_stdout_error
                  strict_utf8_db [py "pdfs/menu.pdf"]) initial_world)
  = [ py "❌ Erreur lors du traitement de pdfs/menu.pdf: 'utf-8' codec can't encode character: surrogates not allowed" ].
Proof. vm_compute. reflexivity. Qed.

Example echo_answer :
  outcome (ask_question latin1_lower echo_chain (py "Un salon ?") []) initial_world
  = Ok ([user_turn (py "Un salon ?"); assistant_turn (py "ok")], py "").
Proof. reflexivity. Qed.

(** * More of the program *)

(** ** Classifier: letter case and the meaning of a label *)

(** X5: on ASCII text both classifiers ignore the case of the letters and
    do not depend on the Unicode table of the interpreter: two ASCII texts
    that agree once their capital letters are lowered get the same label. *)
Theorem classifiers_ignore_ascii_case (tbl tbl' : UnicodeLower) (s t : str) :
  ascii_only s = true -> ascii_only t = true ->
  map ascii_lower s = map ascii_lower t ->
  detect_event_type tbl s = detect_event_type tbl' t
  /\ detect_type_from_filename tbl s = detect_type_from_filename tbl' t.
Proof.
  intros Hs Ht Hst. unfold detect_event_type, detect_type_from_filename.
  now rewrite (lower_ascii tbl s), (lower_ascii tbl' t), Hst.
Qed.

Lemma classifiers_ignore_ascii_case_witness :
  detect_event_type latin1_lower (py "Un SALON a Paris")
  = detect_event_type (fun _ _ c => [c]) (py "uN salon A paris")
  /\ detect_type_from_filename latin1_lower (py "Un SALON a Paris")
     = detect_type_from_filename (fun _ _ c => [c]) (py "uN salon A paris").
Proof.
  exact (classifiers_ignore_ascii_case latin1_lower (fun _ _ c => [c])
           (py "Un SALON a Paris") (py "uN salon A paris") eq_refl eq_refl eq_refl).
Defined.

Lemma label_inj (c c' : Category) : label c = label c' -> c = c'.
Proof.
  intros H. destruct c, c'; try reflexivity; vm_compute in H; discriminate H.
Qed.

Lemma first_match_inv (rules : list (list str * Category)) (text : str) :
  (exists pre kws post,
      rules = pre ++ (kws, first_match rules text) :: post
      /\ (forall rule, rule ∈ pre -> any_in (fst rule) text = false)
      /\ any_in kws text = true)
  \/ ((forall rule, rule ∈ rules -> any_in (fst rule) text = false)
      /\ first_match rules text = SEMINAR).
Proof.
  induction rules as [|[kws c] rules IH]; simpl.
  - right. split; [intros rule H; inversion H | reflexivity].
  - destruct (any_in kws text) eqn:Hk.
    + left. exists [], kws, rules. split_and!; [reflexivity | | exact Hk].
      intros rule H. inversion H.
    + destruct IH as [(pre & kws' & post & Hr & Hpre & Hm) | [Hnone Hs]].
      * left. exists ((kws, c) :: pre), kws', post. split_and!.
        -- simpl. now rewrite <- Hr.
        -- intros rule H. apply elem_of_cons in H as [-> | H]; [exact Hk | now apply Hpre].
        -- exact Hm.
      * right. split; [|exact Hs].
        intros rule H. apply elem_of_cons in H as [-> | H]; [exact Hk | now apply Hnone].
Qed.

(** X6: a label is returned for a reason.  A question gets a label other
    than SEMINAIRE only when a keyword of that label's rule occurs in the
    lower-cased question, and it gets SEMINAIRE exactly when no keyword of
    any question rule occurs.  A file name gets a label only when a keyword
    of a rule with that label occurs in it, or, for SEMINAIRE, when no
    keyword of any rule occurs. *)
Theorem labels_are_justified (tbl : UnicodeLower) :
  (forall q c,
      detect_event_type tbl q = label c -> c <> SEMINAR ->
      exists kws, (kws, c) ∈ question_rules /\ any_in kws (lower tbl q) = true)
  /\ (forall q,
        detect_event_type tbl q = py "SEMINAIRE"
        <-> forall rule, rule ∈ question_rules -> any_in (fst rule) (lower tbl q) = false)
  /\ (forall f c,
        detect_type_from_filename tbl f = label c ->
        (exists kws, (kws, c) ∈ filename_rules /\ any_in kws (lower tbl f) = true)
        \/ (c = SEMINAR
            /\ forall rule, rule ∈ filename_rules -> any_in (fst rule) (lower tbl f) = false)).
Proof.
  split_and!.
  - intros q c Hq Hc. rewrite detect_event_type_table in Hq. apply label_inj in Hq.
    unfold classify_by_question in Hq.
    destruct (first_match_inv question_rules (lower tbl q))
      as [(pre & kws & post & Hr & _ & Hm) | [_ Hs]].
    + exists kws. split; [|exact Hm]. rewrite Hr, Hq. apply elem_of_app. right. left.
    + congruence.
  - intros q. split.
    + intros Hq. change (py "SEMINAIRE") with (label SEMINAR) in Hq.
      rewrite detect_event_type_table in Hq. apply label_inj in Hq.
      unfold classify_by_question in Hq.
      destruct (first_match_inv question_rules (lower tbl q))
        as [(pre & kws & post & Hr & _ & _) | [Hnone _]]; [|exact Hnone].
      exfalso. rewrite Hq in Hr.
      assert (Hin : (kws, SEMINAR) ∈ question_rules)
        by (rewrite Hr; apply elem_of_app; right; left).
      unfold question_rules in Hin.
      repeat (apply elem_of_cons in Hin as [Hin | Hin]; [discriminate Hin|]).
      inversion Hin.
    + intros Hnone. rewrite detect_event_type_table. unfold classify_by_question.
      now rewrite first_match_none.
  - intros f c Hf. rewrite detect_type_from_filename_table in Hf. apply label_inj in Hf.
    unfold classify_by_filename in Hf.
    destruct (first_match_inv filename_rules (lower tbl f))
      as [(pre & kws & post & Hr & _ & Hm) | [Hnone Hs]].
    + left. exists kws. split; [|exact Hm]. rewrite Hr, Hf. apply elem_of_app. right. left.
    + right. split; [congruence | exact Hnone].
Qed.

Lemma labels_are_justified_witness :
  exists kws, (kws, BUDGET) ∈ question_rules
              /\ any_in kws (lower latin1_lower (py "Quel PRIX ?")) = true.
Proof.
  refine (proj1 (labels_are_justified latin1_lower) (py "Quel PRIX ?") BUDGET eq_refl _).
  discriminate.
Defined.

(** ** Store and ingestion: what gets stored, and what is read back *)

Lemma metadata_fields (t ty : str) :
  dict_of [(py "title", t); (py "type", ty)] !! py "title" = Some t
  /\ dict_of [(py "title", t); (py "type", ty)] !! py "type" = Some ty.
Proof.
  unfold dict_of. simpl. split.
  - rewrite lookup_insert_ne by (vm_compute; discriminate). apply lookup_insert_eq.
  - apply lookup_insert_eq.
Qed.

Lemma load_documents_from_db_run (w : World) :
  load_documents_from_db w
  = (Ok (map (fun row =>
                {| page_content := content row;
                   metadata := dict_of [(py "title", title row); (py "type", type row)] |})
             (documents w)), w).
Proof. reflexivity. Qed.

(** X1: what ingestion stores is what [load_documents_from_db] reads back.
    After a file that exists and is extracted, with a new title, is
    ingested and the database accepts the lookup and the insertion, loading
    returns the documents it returned before followed by one more, whose
    text is the pages of the file joined by newlines and whose metadata give
    the base name of the path as title and its detected type; loading
    changes nothing. *)
Theorem load_reads_back_insert (tbl : UnicodeLower) (ex : list N -> bool)
        (ld : list N -> Result (list Document)) (out : StdoutError) (db : SqliteError)
        (p : str) (docs : list Document) (w : World) :
  ex p = true -> ld p = Ok docs -> basename p ∉ titles w ->
  db w (SELECT_COUNT (basename p)) = None ->
  db w (INSERT (basename p) (join [10] (map page_content docs))
               (detect_type_from_filename tbl (basename p))) = None ->
  exists before doc,
    outcome load_documents_from_db w = Ok before
    /\ outcome load_documents_from_db (exec (insert_pdfs_from tbl ex ld out db [p]) w)
       = Ok (before ++ [doc])
    /\ page_content doc = join [10] (map page_content docs)
    /\ metadata doc !! py "title" = Some (basename p)
    /\ metadata doc !! py "type" = Some (detect_type_from_filename tbl (basename p))
    /\ exec load_documents_from_db (exec (insert_pdfs_from tbl ex ld out db [p]) w)
       = exec (insert_pdfs_from tbl ex ld out db [p]) w.
Proof.
  intros Hex Hld Hnew Hsel Hins.
  destruct (insert_pdfs_from_fields tbl ex ld out db [p] w) as [Hdocs _].
  destruct (body_effect_insert tbl ex ld out db p docs w Hex Hld Hnew Hsel Hins)
    as [Heff Hraise].
  simpl in Hdocs. rewrite Hraise, Heff in Hdocs. simpl in Hdocs.
  eexists. eexists. split; [reflexivity|]. split_and!.
  - unfold outcome. rewrite load_documents_from_db_run. simpl.
    rewrite Hdocs, map_app. reflexivity.
  - reflexivity.
  - apply metadata_fields.
  - apply metadata_fields.
  - reflexivity.
Qed.

Lemma load_reads_back_insert_witness :
  exists doc,
    outcome load_documents_from_db
            (exec (insert_pdfs_from latin1_lower demo_exists demo_load ascii_stdout
                     strict_utf8_db [py "pdfs/budget_mariage.pdf"]) initial_world)
    = Ok [doc]
    /\ page_content doc = py "Traiteur" ++ [10] ++ py "Salle"
    /\ metadata doc !! py "title" = Some (py "budget_mariage.pdf")
    /\ metadata doc !! py "type" = Some (py "MARIAGE").
Proof.
  destruct (load_reads_back_insert latin1_lower demo_exists demo_load ascii_stdout
              strict_utf8_db (py "pdfs/budget_mariage.pdf") _ initial_world
              eq_refl eq_refl)
    as (before & doc & Hb & Ha & Hc & Ht & Hty & _).
  - intros H. inversion H.
  - reflexivity.
  - reflexivity.
  - injection Hb as <-. exists doc. now split_and!.
Defined.







(** ** Each operation keeps to its part of the state *)

Lemma ask_question_store (tbl : UnicodeLower) (qa : Chain) (q : str) (hist : list Dict)
      (w : World) :
  documents (exec (ask_question tbl qa q hist) w) = documents w
  /\ sqlite_sequence (exec (ask_question tbl qa q hist) w) = sqlite_sequence w.
Proof.
  unfold exec. destruct (blank q) eqn:Hb.
  - now rewrite ask_question_blank_run.
  - rewrite ask_question_nonblank_run by exact Hb.
    destruct (qa _ _ _); now split.
Qed.

(** X2: answering never writes to the document store, and it prints only
    when the chain raises; ingestion never touches the prompt of the chain
    and never calls the chain; building the retriever and loading the
    documents leave the whole state as it is. *)
Theorem operations_keep_to_their_state :
  (forall tbl (qa : Chain) q hist w,
      documents (exec (ask_question tbl qa q hist) w) = documents w
      /\ sqlite_sequence (exec (ask_question tbl qa q hist) w) = sqlite_sequence w)
  /\ (forall tbl (qa : Chain) q hist w,
        (forall e, qa (length (invocations w)) (bound_prompt tbl q) (query_inputs q)
                   <> Raise e) ->
        stdout (exec (ask_question tbl qa q hist) w) = stdout w)
  /\ (forall tbl ex ld out db paths w,
        chain_prompt (exec (insert_pdfs_from tbl ex ld out db paths) w) = chain_prompt w
        /\ invocations (exec (insert_pdfs_from tbl ex ld out db paths) w) = invocations w)
  /\ (forall (VS R : Type) sp fa ar w, exec (create_retriever VS R sp fa ar) w = w)
  /\ (forall w, exec load_documents_from_db w = w).
Proof.
  split_and!.
  - apply ask_question_store.
  - intros tbl qa q hist w Hok. unfold exec. destruct (blank q) eqn:Hb.
    + now rewrite ask_question_blank_run.
    + rewrite ask_question_nonblank_run by exact Hb.
      destruct (qa _ _ _) as [r|e] eqn:Hqa; [reflexivity|]. now contradiction (Hok e).
  - intros tbl ex ld out db paths w.
    destruct (insert_pdfs_from_fields tbl ex ld out db paths w) as (_ & _ & -> & -> & _).
    apply run_chain.
  - intros VS R sp fa ar w. unfold exec. now rewrite create_retriever_run.
  - reflexivity.
Qed.

Lemma operations_keep_to_their_state_witness :
  stdout (exec (ask_question latin1_lower echo_chain (py "Un salon ?") []) initial_world)
  = stdout initial_world.
Proof.
  apply (proj1 (proj2 operations_keep_to_their_state)).
  intros e H. discriminate H.
Defined.

(** ** Row identifiers *)

Lemma fold_max_ge (base : N) (l : list N) : base <= fold_right N.max base l.
Proof. induction l as [|x l IH]; simpl; lia. Qed.

Lemma fold_max_elem (base : N) (l : list N) (x : N) :
  x ∈ l -> x <= fold_right N.max base l.
Proof.
  induction l as [|y l IH]; intros H; [inversion H|].
  apply elem_of_cons in H as [-> | H]; simpl; [lia|]. specialize (IH H). lia.
Qed.

Lemma rowid_below_next (w : World) (r : Row) :
  r ∈ documents w -> rowid r < next_rowid w.
Proof.
  intros H. unfold next_rowid.
  assert (rowid r <= fold_right N.max (sqlite_sequence w) (map rowid (documents w))).
  { apply fold_max_elem. apply list_elem_of_In, in_map. now apply list_elem_of_In. }
  lia.
Qed.

Lemma rowids_increase_snoc (rows : list Row) (r : Row) :
  rowids_increase rows -> (forall r', r' ∈ rows -> rowid r' < rowid r) ->
  rowids_increase (rows ++ [r]).
Proof.
  intros Hinc Hlt i j ri rj Hij Hi Hj.
  destruct (decide (j < length rows)%nat) as [Hjl | Hjl].
  - rewrite lookup_app_l in Hi by lia. rewrite lookup_app_l in Hj by lia.
    apply (Hinc i j ri rj); assumption.
  - assert (Hjlen : j = length rows).
    { apply lookup_lt_Some in Hj. rewrite length_app in Hj. simpl in Hj. lia. }
    subst j. rewrite lookup_app_l in Hi by lia.
    rewrite list_lookup_middle in Hj by reflexivity. injection Hj as <-.
    apply Hlt. eapply list_elem_of_lookup_2. exact Hi.
Qed.

Lemma body_effect_rowids tbl ex ld out db (p : str) (w : World) :
  rowids_increase (documents w) ->
  rowids_increase (documents (body_effect tbl ex ld out db p w)).
Proof.
  intros Hinc.
  destruct (body_effect_documents tbl ex ld out db p w)
    as [[-> _] | (docs & _ & _ & _ & _ & _ & _ & ->)]; [exact Hinc|].
  apply rowids_increase_snoc; [exact Hinc|].
  intros r Hr. simpl. now apply rowid_below_next.
Qed.

Lemma insert_pdfs_from_rowids tbl ex ld out db (paths : list str) (w : World) :
  rowids_increase (documents w) ->
  rowids_increase (documents (exec (insert_pdfs_from tbl ex ld out db paths) w)).
Proof.
  intros Hinc. destruct (insert_pdfs_from_fields tbl ex ld out db paths w) as [-> _].
  apply (run_preserves tbl ex ld out db (fun w' => rowids_increase (documents w')));
    [|exact Hinc].
  intros p w'. apply body_effect_rowids.
Qed.

Lemma rowids_increase_NoDup (rows : list Row) :
  rowids_increase rows -> NoDup (map rowid rows).
Proof.
  intros Hinc. change (map rowid rows) with (rowid <$> rows).
  apply NoDup_alt. intros i j x Hi Hj.
  rewrite list_lookup_fmap in Hi, Hj.
  destruct (rows !! i) as [ri|] eqn:Ei; [|discriminate].
  destruct (rows !! j) as [rj|] eqn:Ej; [|discriminate].
  simpl in Hi, Hj. injection Hi as Hi. injection Hj as Hj.
  destruct (Nat.lt_trichotomy i j) as [Hlt | [Heq | Hgt]]; [|exact Heq|].
  - pose proof (Hinc i j ri rj Hlt Ei Ej). lia.
  - pose proof (Hinc j i rj ri Hgt Ej Ei). lia.
Qed.



(** ** The types of the stored rows *)

Lemma insert_pdfs_from_types tbl ex ld out db (paths : list str) (w : World) :
  Forall (fun r => exists c, type r = label c) (documents w) ->
  Forall (fun r => exists c, type r = label c)
         (documents (exec (insert_pdfs_from tbl ex ld out db paths) w)).
Proof.
  intros Hall. destruct (insert_pdfs_from_fields tbl ex ld out db paths w) as [-> _].
  apply (run_preserves tbl ex ld out db
           (fun w' => Forall (fun r => exists c, type r = label c) (documents w')));
    [|exact Hall].
  clear w Hall. intros p w Hall.
  destruct (body_effect_documents tbl ex ld out db p w)
    as [[-> _] | (docs & _ & _ & _ & _ & _ & _ & ->)]; [exact Hall|].
  simpl. apply Forall_app. split; [exact Hall|]. constructor; [|constructor].
  simpl. eexists. apply detect_type_from_filename_table.
Qed.

(** X4: every row of a store the program has filled carries one of the
    six category labels as its type, so every document loaded from the
    store names, in its metadata, a type for which the prompt map has a
    template. *)
Theorem stored_types_have_prompts (w : World) :
  reachable w ->
  Forall (fun r => exists c, type r = label c) (documents w)
  /\ forall docs,
       outcome load_documents_from_db w = Ok docs ->
       Forall (fun d => exists c, metadata d !! py "type" = Some (label c)
                                  /\ is_Some (prompt_map !! label c)) docs.
Proof.
  intros Hw.
  assert (Hrows : Forall (fun r => exists c, type r = label c) (documents w)).
  { induction Hw as [w H | tbl ex ld out db paths w _ IH | VS R sp fa ar w _ IH
                     | tbl qa q hist w _ IH].
    - rewrite H. constructor.
    - now apply insert_pdfs_from_types.
    - unfold exec. now rewrite create_retriever_run.
    - now rewrite (proj1 (ask_question_store tbl qa q hist w)). }
  split; [exact Hrows|].
  intros docs Hload. unfold outcome in Hload. rewrite load_documents_from_db_run in Hload.
  simpl in Hload. injection Hload as <-.
  apply Forall_forall. intros d Hd.
  apply list_elem_of_In, in_map_iff in Hd as (row & <- & Hrow).
  apply list_elem_of_In in Hrow.
  rewrite Forall_forall in Hrows. destruct (Hrows row Hrow) as [c Hc].
  exists c. simpl. split; [|apply label_in_prompt_map].
  rewrite <- Hc. apply metadata_fields.
Qed.

Lemma stored_types_have_prompts_witness :
  Forall (fun r => exists c, type r = label c)
         (documents (exec (insert_pdfs latin1_lower demo_exists demo_load
                                       no_stdout_error strict_utf8_db) initial_world)).
Proof.
  apply stored_types_have_prompts.
  apply reach_insert_pdfs. now apply reach_start.
Defined.

(** ** Start-up *)

Lemma insert_pdfs_from_ok tbl ex ld out db (paths : list str) (w : World) :
  stdout_accepts_all out -> db_commits db ->
  insert_pdfs_from tbl ex ld out db paths w
  = (Ok tt, exec (insert_pdfs_from tbl ex ld out db paths) w).
Proof. intros Hout Hcommit. unfold exec. now rewrite insert_pdfs_from_run. Qed.



(** ** Answers and conversations *)

(** X11: when the chain answers, [ask_question] appends the question, word
    for word, and then the "result" entry of the output of the chain, or
    the fixed sentence "Je n'ai pas de réponse." when the output has no such
    entry; the status is empty and nothing is printed. *)
Theorem ask_question_answers (tbl : UnicodeLower) (qa : Chain) (question : str)
        (chat_display : list Dict) (w : World) (result : Dict) :
  blank question = false ->
  qa (length (invocations w)) (bound_prompt tbl question) (query_inputs question)
  = Ok result ->
  outcome (ask_question tbl qa question chat_display) w
  = Ok (chat_display
          ++ [user_turn question;
              assistant_turn (match result !! py "result" with
                              | Some answer => answer
                              | None => py "Je n'ai pas de réponse."
                              end)],
        py "")
  /\ user_turn question !! py "content" = Some question
  /\ exec (ask_question tbl qa question chat_display) w = after_call tbl question w
  /\ stdout (exec (ask_question tbl qa question chat_display) w) = stdout w.
Proof.
  intros Hb Hok. unfold outcome, exec.
  rewrite ask_question_nonblank_run, Hok by exact Hb. simpl.
  split_and!; try reflexivity; try apply turn_fields.
  rewrite <- app_assoc. unfold dict_get, default.
  destruct (result !! py "result"); reflexivity.
Qed.

Lemma ask_question_answers_witness :
  outcome (ask_question latin1_lower mute_chain (py "  Un salon ? ") []) initial_world
  = Ok ([user_turn (py "  Un salon ? "); assistant_turn (py "Je n'ai pas de réponse.")],
        py "").
Proof.
  refine (proj1 (ask_question_answers latin1_lower mute_chain (py "  Un salon ? ") []
                   initial_world ∅ _ _)); vm_compute; reflexivity.
Defined.

Lemma converse_cons (tbl : UnicodeLower) (qa : Chain) (q : str) (rest : list (list N))
      (hist : list Dict) (w : World) :
  converse tbl qa (q :: rest) hist w
  = match outcome (ask_question tbl qa q hist) w with
    | Ok r => converse tbl qa rest (fst r) (exec (ask_question tbl qa q hist) w)
    | Raise e => (Raise e, exec (ask_question tbl qa q hist) w)
    end.
Proof.
  simpl. unfold mbind, M_bind, outcome, exec.
  destruct (ask_question tbl qa q hist w) as [[r|e] w1]; reflexivity.
Qed.

Lemma ask_question_history (tbl : UnicodeLower) (qa : Chain) (q : str)
      (hist : list Dict) (w : World) :
  blank q = false ->
  exists answer,
    outcome (ask_question tbl qa q hist) w
    = Ok (hist ++ [user_turn q; assistant_turn answer], py "").
Proof.
  intros Hb. unfold outcome. rewrite ask_question_nonblank_run by exact Hb.
  destruct (qa _ _ _); eexists; simpl; now rewrite <- app_assoc.
Qed.


(** ** Requests in flight at once *)

Lemma bound_prompt_known (tbl : UnicodeLower) (q : str) : known_template (bound_prompt tbl q).
Proof. eexists. apply bound_prompt_lookup. Qed.

Lemma select_keeps_known (tbl : UnicodeLower) (q : str) :
  keeps_known_templates (ask_question_select tbl q).
Proof.
  intros w _. split; [apply bound_prompt_known|].
  exists []. split; [simpl; now rewrite app_nil_r | constructor].
Qed.

Lemma generate_keeps_known (qa : Chain) (q : str) (hist : list Dict) :
  keeps_known_templates (ask_question_generate qa q hist;; mret tt).
Proof.
  intros w Hknown. unfold exec, mbind, M_bind. rewrite ask_question_generate_run.
  destruct (qa _ _ _); simpl; (split; [exact Hknown|]);
    exists [(chain_prompt w, query_inputs q)]; (split; [reflexivity|]);
    constructor; [exact Hknown | constructor | exact Hknown | constructor].
Qed.

Lemma request_keeps_known (tbl : UnicodeLower) (qa : Chain) (q : str) (hist : list Dict) :
  Forall keeps_known_templates (request tbl qa q hist).
Proof.
  unfold request. destruct (negb (truthy (strip q))); [constructor|].
  constructor; [apply select_keeps_known|].
  constructor; [apply generate_keeps_known | constructor].
Qed.

Lemma run_schedule_keeps_known (schedule : list nat) (threads : list (list (M unit)))
      (w : World) :
  Forall (Forall keeps_known_templates) threads ->
  known_template (chain_prompt w) ->
  known_template (chain_prompt (exec (run_schedule schedule threads) w))
  /\ exists extra,
       invocations (exec (run_schedule schedule threads) w) = invocations w ++ extra
       /\ Forall (fun inv => known_template (fst inv)) extra.
Proof.
  revert threads w.
  induction schedule as [|i schedule IH]; intros threads w Hthreads Hknown; simpl.
  - split; [exact Hknown|]. exists []. split; [simpl; now rewrite app_nil_r | constructor].
  - destruct (threads !! i) as [[|step rest]|] eqn:Hi; try (now apply IH).
    assert (Hgood : Forall keeps_known_templates (step :: rest)).
    { rewrite Forall_forall in Hthreads. apply Hthreads.
      eapply list_elem_of_lookup_2. exact Hi. }
    apply Forall_cons_1 in Hgood as [Hstep Hrest].
    destruct (Hstep w Hknown) as (Hk1 & extra1 & Hinv1 & Hall1).
    unfold exec, mbind, M_bind in *.
    destruct (step w) as [[u|e] w1]; simpl in *.
    + destruct (IH (<[i:=rest]> threads) w1) as (Hk2 & extra2 & Hinv2 & Hall2).
      * now apply Forall_insert.
      * exact Hk1.
      * split; [exact Hk2|]. exists (extra1 ++ extra2). split.
        -- now rewrite Hinv2, Hinv1, <- app_assoc.
        -- apply Forall_app. now split.
    + split; [exact Hk1|]. now exists extra1.
Qed.

(** X13: however requests in flight are interleaved, a generation call
    never runs under a template from outside the prompt map.  If the chain
    holds one of the six templates when the requests start, every call made
    while they run is made under one of the six, and the chain holds one of
    them at the end. *)
Theorem generation_always_under_a_known_template (tbl : UnicodeLower) (qa : Chain)
        (calls : list (list N * list Dict)) (schedule : list nat) (w : World) :
  known_template (chain_prompt w) ->
  Forall (fun inv => known_template (fst inv))
         (new_invocations w
            (exec (run_schedule schedule
                     (map (fun c => request tbl qa (fst c) (snd c)) calls)) w))
  /\ known_template
       (chain_prompt
          (exec (run_schedule schedule
                   (map (fun c => request tbl qa (fst c) (snd c)) calls)) w)).
Proof.
  intros Hknown.
  destruct (run_schedule_keeps_known schedule
              (map (fun c => request tbl qa (fst c) (snd c)) calls) w)
    as (Hk & extra & Hinv & Hall).
  - apply Forall_forall. intros thread Hthread.
    apply list_elem_of_In, in_map_iff in Hthread as (c & <- & _).
    apply request_keeps_known.
  - exact Hknown.
  - split; [|exact Hk]. unfold new_invocations. now rewrite Hinv, drop_app_length.
Qed.

Lemma generation_always_under_a_known_template_witness :
  Forall (fun inv => known_template (fst inv))
         (new_invocations initial_world
            (exec (run_schedule [0; 1; 0; 1]%nat
                     (map (fun c => request latin1_lower echo_chain (fst c) (snd c))
                          [(py "Un mariage", []); (py "Quel budget ?", [])]))
                  initial_world)).
Proof.
  apply (generation_always_under_a_known_template latin1_lower echo_chain
           [(py "Un mariage", []); (py "Quel budget ?", [])] [0; 1; 0; 1]%nat
           initial_world).
  exists (py "SEMINAIRE"). exact default_prompt_lookup.
Defined.

(** ** The templates *)

Lemma bound_prompt_of_category (tbl : UnicodeLower) (q : str) :
  exists c, detect_event_type tbl q = label c
            /\ prompt_map !! label c = Some (bound_prompt tbl q).
Proof.
  exists (classify_by_question tbl q). split; [apply detect_event_type_table|].
  rewrite <- detect_event_type_table. apply bound_prompt_lookup.
Qed.

(** X14: whatever the question, the prompt bound for it declares the two
    variables context and question, and its text holds the slot of each
    exactly once and no other brace; and two questions are given the same
    prompt only when they are classified alike. *)
Theorem bound_prompt_has_its_two_slots (tbl : UnicodeLower) :
  (forall q,
      input_variables (bound_prompt tbl q) = [py "context"; py "question"]
      /\ occurrences (py "{context}") (template (bound_prompt tbl q)) = 1%nat
      /\ occurrences (py "{question}") (template (bound_prompt tbl q)) = 1%nat
      /\ occurrences (py "{") (template (bound_prompt tbl q)) = 2%nat
      /\ occurrences (py "}") (template (bound_prompt tbl q)) = 2%nat)
  /\ (forall q q',
        bound_prompt tbl q = bound_prompt tbl q'
        <-> detect_event_type tbl q = detect_event_type tbl q').
Proof.
  split.
  - intros q. destruct (bound_prompt_of_category tbl q) as (c & _ & Hc).
    assert (Hp : bound_prompt tbl q = default (bound_prompt tbl q) (prompt_map !! label c))
      by now rewrite Hc.
    rewrite Hp. clear Hp Hc.
    destruct c; vm_compute; repeat split.
  - intros q q'. split.
    + intros Heq.
      destruct (bound_prompt_of_category tbl q) as (c & Hd & Hc).
      destruct (bound_prompt_of_category tbl q') as (c' & Hd' & Hc').
      rewrite Hd, Hd'. f_equal.
      rewrite Heq in Hc. rewrite <- Hc' in Hc. clear -Hc.
      destruct c, c'; try reflexivity; exfalso;
        apply (f_equal (fun o => match o with
                                 | Some p => template p
                                 | None => []
                                 end)) in Hc;
        apply str_eqb_eq in Hc; vm_compute in Hc; discriminate Hc.
    + intros Heq. unfold bound_prompt. now rewrite Heq.
Qed.
